(** * chatnoir-pyterrier: the ChatNoir retrieval adapter

    A shallow embedding of [chatnoir_pyterrier/retrieve.py]: the [Feature]
    flag enumeration, the [ChatNoirRetrieve] configuration, the result
    flattener [_merge_result], the per-query transform [_transform_query],
    the batch [transform] and [__hash__].

    Conventions of the embedding.
    - Python exceptions are values of [PyError]; code that can raise or that
      talks to the search service runs in the monad [M], which threads the
      log of requests issued to the external client.
    - The external client ([chatnoir_api.v1.search], [search_phrases]) is a
      section variable [client]: the finite, ordered sequence of result
      records the service yields for a request.
    - A pandas [DataFrame] is its set of column labels and its list of
      records; a record is a finite map from column label to cell value.
      Row labels and column order carry no information here.  A table
      built from no records has no columns, so a batch without any result
      has no [score] column for [sort_values] to find.
    - Scores, slop and back-off are numbers the adapter only stores,
      compares and passes on; integers stand for them. *)

From Stdlib Require Import ZArith NArith Lia String Ascii List Permutation.
From stdpp Require Import gmap strings list fin_maps sorting.

Local Open Scope string_scope.
Local Open Scope Z_scope.

(** ** Python values and exceptions *)

(** Cell values of a table and attribute values of a result record. *)
Inductive Value : Type :=
| VNone
| VNaN
| VStr (s : string)
| VNum (z : Z)
| VBool (b : bool).

#[global] Instance Value_eq_dec : EqDecision Value.
Proof. solve_decision. Defined.

Inductive PyError : Type :=
| RuntimeError (msg : string)
| TypeError (msg : string)
| ValueError (msg : string)
| KeyError (key : string).

#[global] Instance PyError_eq_dec : EqDecision PyError.
Proof. solve_decision. Defined.

(** ** The [Feature] flag enumeration

    A [Flag] member is its integer value; [auto()] hands out the next
    power of two above the highest value seen so far, and [|] is bitwise
    or. *)
Module Feature.

Definition t : Type := N.

Definition NONE : t := 0%N.
Definition UUID : t := 1%N.
Definition INDEX : t := 2%N.
Definition TARGET_HOSTNAME : t := 4%N.
Definition TARGET_URI : t := 8%N.
Definition TARGET : t := N.lor TARGET_HOSTNAME TARGET_URI.
Definition PAGE_RANK : t := 16%N.
Definition SPAM_RANK : t := 32%N.
Definition RANKS : t := N.lor PAGE_RANK SPAM_RANK.
Definition TITLE_HIGHLIGHTED : t := 64%N.
Definition TITLE_TEXT : t := 128%N.
Definition TITLE : t := N.lor TITLE_HIGHLIGHTED TITLE_TEXT.
Definition SNIPPET_HIGHLIGHTED : t := 256%N.
Definition SNIPPET_TEXT : t := 512%N.
Definition SNIPPET : t := N.lor SNIPPET_HIGHLIGHTED SNIPPET_TEXT.
Definition EXPLANATION : t := 1024%N.
Definition HTML : t := 2048%N.
Definition HTML_PLAIN : t := 4096%N.
Definition ALL : t :=
  N.lor UUID (N.lor INDEX (N.lor TARGET (N.lor RANKS (N.lor TITLE
    (N.lor SNIPPET (N.lor EXPLANATION (N.lor HTML HTML_PLAIN))))))).

(** [a | b] on flags. *)
Definition or (a b : t) : t := N.lor a b.

(** [other in self] for a flag value [self]: [Flag.__contains__]. *)
Definition contains (self other : t) : bool :=
  N.eqb (N.land other self) other.

End Feature.

(** ** The index enumeration of the client library

    A member of the client library's [Index] enumeration is known to the
    adapter by its [name] (the sort key of [__hash__]) and its [value]
    (the cell written by the flattener). *)
Module Index.

Record t : Type := { name : string; value : Value }.

#[global] Instance eq_dec : EqDecision t.
Proof. solve_decision. Defined.

End Index.

(** A Python [set] is modelled by the list of its elements in iteration
    order; membership and equality never look at that order. *)
Definition PySet (A : Type) : Type := list A.

Definition set_contains {A} `{EqDecision A} (s : PySet A) (x : A) : bool :=
  bool_decide (x ∈ s).

Definition set_equal {A} `{EqDecision A} (s1 s2 : PySet A) : bool :=
  forallb (set_contains s2) s1 && forallb (set_contains s1) s2.

(** ** The retriever configuration *)

(** [Union[Index, Set[Index]]] *)
Inductive IndexConf : Type :=
| OneIndex (i : Index.t)
| IndexSet (s : PySet Index.t).

(** [Union[Feature, Set[Feature]]] *)
Inductive FeatureConf : Type :=
| OneFeature (f : Feature.t)
| FeatureSet (s : PySet Feature.t).

Record ChatNoirRetrieve : Type := {
  api_key : string;
  index : IndexConf;
  phrases : bool;
  slop : Z;
  features : FeatureConf;
  filter_unknown : bool;
  num_results : option Z;
  page_size : Z;
  retries : Z;
  backoff_seconds : Z;
  verbose : bool
}.

(** ** Result records of the client library *)
Module SearchResult.

Record t : Type := {
  trec_id : option string;
  score : Z;
  uuid : Value;
  index : Index.t;
  target_hostname : Value;
  target_uri : Value;
  page_rank : Value;
  spam_rank : Value;
  title_html : Value;
  title_text : Value;
  snippet_html : Value;
  snippet_text : Value;
  explanation : Value;
  html_contents : bool -> Value
}.

End SearchResult.

(** ** Tables *)

Abbreviation Row := (gmap string Value).

Record DataFrame : Type := {
  columns : gset string;
  records : list Row
}.

(** What [transform] may be handed: a table or any other object. *)
Inductive PyObject : Type :=
| IsDataFrame (df : DataFrame)
| NotDataFrame (v : Value).

(** Cells absent from a record become NaN when a table is built. *)
Definition fill_missing (cols : gset string) (r : Row) : Row :=
  r ∪ gset_to_gmap VNaN cols.

(** [DataFrame(rows)] for a list of dicts. *)
Definition DataFrame_of_records (rows : list Row) : DataFrame :=
  let cols := ⋃ (dom <$> rows) in
  {| columns := cols; records := fill_missing cols <$> rows |}.

(** [pandas.concat] of tables, followed by [reset_index(drop=True)]: the
    row labels carry no information in this model. *)
Definition concat_frames (dfs : list DataFrame) : DataFrame :=
  let cols := ⋃ (columns <$> dfs) in
  {| columns := cols;
     records := fill_missing cols <$> concat (records <$> dfs) |}.

(** [len(df)] *)
Definition df_len (df : DataFrame) : nat := length (records df).

(** ** Requests to the external search client and the effect monad *)

(** One call of the client library, with the keyword arguments the adapter
    passes. *)
Inductive Request : Type :=
| search (api_key : string) (query : Value) (index : IndexConf)
         (explain : bool) (page_size : Z)
| search_phrases (api_key : string) (query : Value) (index : IndexConf)
                 (slop : Z) (explain : bool) (page_size : Z).

Definition request_page_size (req : Request) : Z :=
  match req with
  | search _ _ _ _ n => n
  | search_phrases _ _ _ _ _ n => n
  end.

(** A computation that may raise and that appends to the log of requests
    sent to the service. *)
Definition M (A : Type) : Type :=
  list Request -> (PyError + A) * list Request.

Definition ret {A} (x : A) : M A := fun log => (inr x, log).

Definition raise {A} (e : PyError) : M A := fun log => (inl e, log).

Definition bind {A B} (c : M A) (k : A -> M B) : M B :=
  fun log =>
    match c log with
    | (inl e, log') => (inl e, log')
    | (inr x, log') => k x log'
    end.

Notation "'let*' x := c 'in' k" := (bind c (fun x => k))
  (at level 10, x name, c at level 100, k at level 200).

(** ** Python built-ins used by the adapter *)

(** [functools.reduce(f, s)] without an initial value. *)
Definition reduce {A} (f : A -> A -> A) (s : list A) : M A :=
  match s with
  | [] => raise (TypeError "reduce() of empty iterable with no initial value")
  | x :: rest => ret (fold_left f rest x)
  end.

(** [sys.maxsize] of a 64-bit interpreter. *)
Definition sys_maxsize : Z := 2 ^ 63 - 1.

(** [itertools.islice(it, stop)]: the stop argument is checked when the
    slice is built. *)
Definition islice {A} (it : list A) (stop : Z) : M (list A) :=
  if (0 <=? stop) && (stop <=? sys_maxsize)
  then ret (take (Z.to_nat stop) it)
  else raise (ValueError
    "Stop argument for islice() must be None or an integer: 0 <= x <= sys.maxsize.").

(** ** pandas operations used by the batch transform *)

Definition is_na (v : Value) : bool :=
  match v with
  | VNone | VNaN => true
  | _ => false
  end.

(** Distinct values in order of first appearance. *)
Fixpoint first_seen (l : list Value) : list Value :=
  match l with
  | [] => []
  | x :: rest => x :: filter (fun y => y <> x) (first_seen rest)
  end.

(** Keys are compared the way Python compares them: [True] is equal to
    [1] and [False] to [0], and they hash alike, so a boolean and the
    integer it equals fall into one group. *)
Definition py_key (v : Value) : Value :=
  match v with
  | VBool b => VNum (if b then 1 else 0)
  | _ => v
  end.

(** The group key of a record; records with a missing key belong to no
    group. *)
Definition group_key (by_ : string) (r : Row) : option Value :=
  match r !! by_ with
  | Some v => if is_na v then None else Some (py_key v)
  | None => None
  end.

(** [df.groupby(by=[by_], as_index=False, sort=False)]: one sub-table per
    distinct key, in order of first appearance, rows in table order. *)
Definition groupby (by_ : string) (df : DataFrame) : list DataFrame :=
  (fun k => {| columns := columns df;
               records := filter (fun r => group_key by_ r = Some k)
                                 (records df) |})
    <$> first_seen (omap (group_key by_) (records df)).

(** [grouped.apply(f)]: [f] on each group in turn, the first exception
    propagating. *)
Fixpoint groupby_apply (f : DataFrame -> M DataFrame)
    (groups : list DataFrame) : M (list DataFrame) :=
  match groups with
  | [] => ret []
  | g :: rest =>
      let* out := f g in
      let* outs := groupby_apply f rest in
      ret (out :: outs)
  end.

(** [grouped.progress_apply(f)] only adds a progress bar. *)
Definition groupby_progress_apply := groupby_apply.

(** The numeric score of a record, if it has one. *)
Definition score_of (r : Row) : option Z :=
  match r !! "score" with
  | Some (VNum z) => Some z
  | _ => None
  end.

(** Descending order on the sort key, missing scores last. *)
Definition score_desc (r1 r2 : Row) : Prop :=
  match score_of r1, score_of r2 with
  | Some a, Some b => b <= a
  | _, None => True
  | None, Some _ => False
  end.

#[global] Instance score_desc_dec : RelDecision score_desc.
Proof.
  intros r1 r2. unfold score_desc.
  destruct (score_of r1), (score_of r2); apply _.
Defined.

(** [df.sort_values(by=[by_], ascending=False)] returns a new, sorted
    table and leaves [df] as it is; an unknown label raises. *)
Definition sort_values_desc (by_ : string) (df : DataFrame) : M DataFrame :=
  if decide (by_ ∈ columns df)
  then ret {| columns := columns df;
              records := merge_sort score_desc (records df) |}
  else raise (KeyError by_).

(** ** The ranking utility of the framework *)

(** The framework's first rank. *)
Definition FIRST_RANK : Z := 0.

Definition same_qid (r r' : Row) : bool :=
  bool_decide (r !! "qid" = r' !! "qid").

(** [r'] scores strictly higher than [r]. *)
Definition score_gt (r' r : Row) : bool :=
  match score_of r', score_of r with
  | Some a, Some b => b <? a
  | _, _ => false
  end.

(** [r'] scores at least as high as [r]. *)
Definition score_ge (r' r : Row) : bool :=
  match score_of r', score_of r with
  | Some a, Some b => b <=? a
  | _, _ => false
  end.

Definition count_rows (p : Row -> bool) (l : list Row) : Z :=
  Z.of_nat (length (List.filter p l)).

(** The rank of [r] among the rows of its query: the rows before it that
    score at least as high and the rows after it that score higher. *)
Definition rank_of (before : list Row) (r : Row) (after : list Row) : Z :=
  FIRST_RANK
  + count_rows (fun r' => same_qid r r' && score_ge r' r) before
  + count_rows (fun r' => same_qid r r' && score_gt r' r) after.

Fixpoint rank_rows (before rows : list Row) : list Row :=
  match rows with
  | [] => []
  | r :: rest =>
      <["rank" := VNum (rank_of before r rest)]> r
        :: rank_rows (r :: before) rest
  end.

(** Modelled from the spec: [add_ranks] is the ranking utility of the
    retrieval framework ([pyterrier.model.add_ranks]), which is not part
    of the adapter's sources.  It assigns a [rank] column per query group
    by descending score, starting at [FIRST_RANK], and leaves row order and
    all other columns untouched; rows of equal score are ranked in table
    order. *)
Definition add_ranks (df : DataFrame) : DataFrame :=
  {| columns := columns df ∪ {["rank"]};
     records := rank_rows [] (records df) |}.

(** ** The adapter *)

Section Retrieve.

(** The search service: the results it yields for a request, in the
    order it returns them. *)
Variable client : Request -> list SearchResult.t.

(** Calling [search(...)] or [search_phrases(...)]. *)
Definition call (req : Request) : M (list SearchResult.t) :=
  fun log => (inr (client req), (log ++ [req])%list).

(** [feature in self.features]: flag containment for a flag value, set
    membership for a set of flags. *)
Definition feature_in (self : ChatNoirRetrieve) (feature : Feature.t)
  : bool :=
  match features self with
  | OneFeature flags => Feature.contains flags feature
  | FeatureSet s => set_contains s feature
  end.

(** [if feature in self.features: row[key] = v] *)
Definition set_if (b : bool) (key : string) (v : Value) (row : Row)
  : Row :=
  if b then <[key := v]> row else row.

Definition docno_of (result : SearchResult.t) : Value :=
  match SearchResult.trec_id result with
  | Some id => VStr id
  | None => VNone
  end.

Definition _merge_result (self : ChatNoirRetrieve) (row : Row)
    (result : SearchResult.t) : Row :=
  let row := <["score" := VNum (SearchResult.score result)]>
               (<["docno" := docno_of result]> row) in
  let row := set_if (feature_in self Feature.UUID)
               "uuid" (SearchResult.uuid result) row in
  let row := set_if (feature_in self Feature.INDEX)
               "index" (Index.value (SearchResult.index result)) row in
  let row := set_if (feature_in self Feature.TARGET_HOSTNAME)
               "target_hostname" (SearchResult.target_hostname result) row in
  let row := set_if (feature_in self Feature.TARGET_URI)
               "target_uri" (SearchResult.target_uri result) row in
  let row := set_if (feature_in self Feature.PAGE_RANK)
               "page_rank" (SearchResult.page_rank result) row in
  let row := set_if (feature_in self Feature.SPAM_RANK)
               "spam_rank" (SearchResult.spam_rank result) row in
  let row := set_if (feature_in self Feature.TITLE_HIGHLIGHTED)
               "title_highlighted" (SearchResult.title_html result) row in
  let row := set_if (feature_in self Feature.TITLE_TEXT)
               "title_text" (SearchResult.title_text result) row in
  let row := set_if (feature_in self Feature.SNIPPET_HIGHLIGHTED)
               "snippet_highlighted" (SearchResult.snippet_html result) row in
  let row := set_if (feature_in self Feature.SNIPPET_TEXT)
               "snippet_text" (SearchResult.snippet_text result) row in
  let row := set_if (feature_in self Feature.EXPLANATION)
               "explanation" (SearchResult.explanation result) row in
  let row := set_if (feature_in self Feature.HTML)
               "html" (SearchResult.html_contents result false) row in
  let row := set_if (feature_in self Feature.HTML_PLAIN)
               "html_plain" (SearchResult.html_contents result true) row in
  row.

(** The page size handed to the client. *)
Definition effective_page_size (self : ChatNoirRetrieve) : Z :=
  match num_results self with
  | Some n => Z.min (page_size self) n
  | None => page_size self
  end.

(** The flag value [explain] is read from. *)
Definition effective_features (self : ChatNoirRetrieve) : M Feature.t :=
  match features self with
  | FeatureSet s => reduce Feature.or s
  | OneFeature f => ret f
  end.

Definition known (result : SearchResult.t) : bool :=
  match SearchResult.trec_id result with
  | Some _ => true
  | None => false
  end.

(** The guard [len(topic.index) != 1] and the read of the only record,
    [topic.to_dict(orient="records")[0]], are one pattern match. *)
Definition _transform_query (self : ChatNoirRetrieve) (topic : DataFrame)
  : M DataFrame :=
  match records topic with
  | [row] =>
      match row !! "query" with
      | None => raise (KeyError "query")
      | Some query =>
          let page_size := effective_page_size self in
          let* features := effective_features self in
          let explain := Feature.contains features Feature.EXPLANATION in
          let* results :=
            if negb (phrases self) then
              call (search (api_key self) query (index self)
                           explain page_size)
            else
              call (search_phrases (api_key self) query (index self)
                                   (slop self) explain page_size) in
          let results :=
            if filter_unknown self then List.filter known results
            else results in
          let* results :=
            match num_results self with
            | Some n => islice results n
            | None => ret results
            end in
          ret (DataFrame_of_records (_merge_result self row <$> results))
      end
  | _ => raise (RuntimeError "Can only transform one query at a time.")
  end.

Definition transform (self : ChatNoirRetrieve) (topics : PyObject)
  : M DataFrame :=
  match topics with
  | NotDataFrame _ => raise (RuntimeError "Can only transform dataframes.")
  | IsDataFrame topics =>
      if negb (bool_decide ({["qid"; "query"]} ⊆ columns topics)) then
        raise (RuntimeError "Needs qid and query columns.")
      else if Nat.eqb (df_len topics) 0 then
        _transform_query self topics
      else
        let topics_by_query := groupby "qid" topics in
        let* topics_by_query :=
          if verbose self then
            groupby_progress_apply (_transform_query self) topics_by_query
          else
            groupby_apply (_transform_query self) topics_by_query in
        let retrieved := concat_frames topics_by_query in
        let* _sorted := sort_values_desc "score" retrieved in
        let retrieved := add_ranks retrieved in
        ret retrieved
  end.

End Retrieve.

(** ** Equality and hashing of configurations *)

(** [sorted(s, key=...)] on string keys: a stable sort. *)
Fixpoint insert_by_key {A} (key : A -> string) (x : A) (l : list A)
  : list A :=
  match l with
  | [] => [x]
  | y :: rest =>
      if String.leb (key x) (key y) then x :: l
      else y :: insert_by_key key x rest
  end.

Fixpoint sorted_by_key {A} (key : A -> string) (l : list A) : list A :=
  match l with
  | [] => []
  | x :: rest => insert_by_key key x (sorted_by_key key rest)
  end.

(** [sorted(s)] on flags: [Flag] members define no order, so the first
    comparison raises; fewer than two elements need no comparison. *)
Definition sorted_features (s : PySet Feature.t)
  : PyError + list Feature.t :=
  match s with
  | [] => inr s
  | [_] => inr s
  | _ => inl (TypeError
      "'<' not supported between instances of 'Feature' and 'Feature'")
  end.

(** The objects that make up the tuple [__hash__] hashes. *)
Inductive PyKey : Type :=
| KNone
| KStr (s : string)
| KBool (b : bool)
| KInt (z : Z)
| KIndex (i : Index.t)
| KFeature (f : Feature.t)
| KTuple (items : list PyKey)
| KList (items : list PyKey).

(** Tuples are hashable when their items are; lists never are. *)
Fixpoint hashable (k : PyKey) : bool :=
  match k with
  | KList _ => false
  | KTuple items => forallb hashable items
  | _ => true
  end.

(** The fields compared by the generated [__eq__], in declaration order. *)
Definition index_eq (a b : IndexConf) : bool :=
  match a, b with
  | OneIndex i, OneIndex j => bool_decide (i = j)
  | IndexSet s, IndexSet t => set_equal s t
  | _, _ => false
  end.

Definition features_eq (a b : FeatureConf) : bool :=
  match a, b with
  | OneFeature f, OneFeature g => N.eqb f g
  | FeatureSet s, FeatureSet t => set_equal s t
  | _, _ => false
  end.

(** The [__eq__] that [@dataclass] generates: the tuples of fields are
    compared. *)
Definition __eq__ (self other : ChatNoirRetrieve) : bool :=
  String.eqb (api_key self) (api_key other)
  && index_eq (index self) (index other)
  && Bool.eqb (phrases self) (phrases other)
  && Z.eqb (slop self) (slop other)
  && features_eq (features self) (features other)
  && Bool.eqb (filter_unknown self) (filter_unknown other)
  && bool_decide (num_results self = num_results other)
  && Z.eqb (page_size self) (page_size other)
  && Z.eqb (retries self) (retries other)
  && Z.eqb (backoff_seconds self) (backoff_seconds other)
  && Bool.eqb (verbose self) (verbose other).

Section Hash.

(** Python's [hash] on hashable objects. *)
Variable pyhash : PyKey -> Z.

(** [hash(obj)] *)
Definition hash (k : PyKey) : PyError + Z :=
  if hashable k then inr (pyhash k)
  else inl (TypeError "unhashable type: 'list'").

Definition index_key (self : ChatNoirRetrieve) : PyKey :=
  match index self with
  | IndexSet s => KTuple (KIndex <$> sorted_by_key Index.name s)
  | OneIndex i => KIndex i
  end.

Definition features_key (self : ChatNoirRetrieve) : PyError + PyKey :=
  match features self with
  | FeatureSet s =>
      match sorted_features s with
      | inl e => inl e
      | inr l => inr (KList (KFeature <$> l))
      end
  | OneFeature f => inr (KFeature f)
  end.

Definition num_results_key (self : ChatNoirRetrieve) : PyKey :=
  match num_results self with
  | Some n => KInt n
  | None => KNone
  end.

Definition __hash__ (self : ChatNoirRetrieve) : PyError + Z :=
  match features_key self with
  | inl e => inl e
  | inr fkey =>
      hash (KTuple [
        KStr (api_key self);
        index_key self;
        KBool (phrases self);
        KInt (slop self);
        fkey;
        KBool (filter_unknown self);
        num_results_key self;
        KInt (page_size self);
        KInt (retries self);
        KInt (backoff_seconds self);
        KBool (verbose self)
      ])
  end.

End Hash.

(** * Vocabulary of the properties *)

(** The optional columns and the flags that select them, in the order
    the flattener tests them. *)
Definition feature_table : list (Feature.t * string) :=
  [(Feature.UUID, "uuid");
   (Feature.INDEX, "index");
   (Feature.TARGET_HOSTNAME, "target_hostname");
   (Feature.TARGET_URI, "target_uri");
   (Feature.PAGE_RANK, "page_rank");
   (Feature.SPAM_RANK, "spam_rank");
   (Feature.TITLE_HIGHLIGHTED, "title_highlighted");
   (Feature.TITLE_TEXT, "title_text");
   (Feature.SNIPPET_HIGHLIGHTED, "snippet_highlighted");
   (Feature.SNIPPET_TEXT, "snippet_text");
   (Feature.EXPLANATION, "explanation");
   (Feature.HTML, "html");
   (Feature.HTML_PLAIN, "html_plain")].

(** The column a table entry adds under a configuration. *)
Definition selected_column (self : ChatNoirRetrieve)
    (entry : Feature.t * string) : gset string :=
  if feature_in self (fst entry) then {[snd entry]} else ∅.

(** The optional columns a configuration selects. *)
Definition feature_columns (self : ChatNoirRetrieve) : gset string :=
  ⋃ (selected_column self <$> feature_table).

(** A set of flags can be folded when it has an element. *)
Definition features_reducible (self : ChatNoirRetrieve) : Prop :=
  features self <> FeatureSet [].

(** A result cap, when set, is one [islice] accepts. *)
Definition cap_in_range (self : ChatNoirRetrieve) : Prop :=
  match num_results self with
  | Some n => 0 <= n <= sys_maxsize
  | None => True
  end.

(** The union of the configured flags. *)
Definition union_of_flags (self : ChatNoirRetrieve) : Feature.t :=
  match features self with
  | OneFeature f => f
  | FeatureSet s => fold_left Feature.or (tl s) (hd Feature.NONE s)
  end.

(** The request a per-query call sends for a query text. *)
Definition query_request (self : ChatNoirRetrieve) (query : Value)
  : Request :=
  let explain := Feature.contains (union_of_flags self) Feature.EXPLANATION in
  if phrases self then
    search_phrases (api_key self) query (index self) (slop self) explain
                   (effective_page_size self)
  else
    search (api_key self) query (index self) explain
           (effective_page_size self).

(** The results left by the filter-unknown policy. *)
Definition surviving (self : ChatNoirRetrieve)
    (results : list SearchResult.t) : list SearchResult.t :=
  if filter_unknown self then List.filter known results else results.

(** The results left by the result cap. *)
Definition capped (self : ChatNoirRetrieve)
    (results : list SearchResult.t) : list SearchResult.t :=
  match num_results self with
  | Some n => take (Z.to_nat n) results
  | None => results
  end.

(** The only exceptions a per-query call raises itself. *)
Definition per_query_error (e : PyError) : Prop :=
  e = RuntimeError "Can only transform one query at a time."
  \/ e = KeyError "query"
  \/ (exists msg, e = TypeError msg)
  \/ (exists msg, e = ValueError msg).

(** The query ids of a table are the strings [qs], row by row. *)
Definition string_qids (rows : list Row) (qs : list string) : Prop :=
  (fun r : Row => r !! "qid") <$> rows = (fun q => Some (VStr q)) <$> qs.

(** The query text of a topic row. *)
Definition query_of (r : Row) : Value := default VNone (r !! "query").

(** Every record of a table has exactly the table's columns. *)
Definition well_formed (df : DataFrame) : Prop :=
  Forall (fun r => dom r = columns df) (records df).

(** The requests of a batch, one per topic row. *)
Definition batch_requests (self : ChatNoirRetrieve) (rows : list Row)
  : list Request :=
  (fun r => query_request self (query_of r)) <$> rows.

(** The integer in the [rank] cell of a row. *)
Definition rank_value (r : Row) : option Z :=
  match r !! "rank" with
  | Some (VNum k) => Some k
  | _ => None
  end.

(** The order [sorted(..., key=key)] sorts by. *)
Definition key_le {A} (key : A -> string) (x y : A) : Prop :=
  String.le (key x) (key y).

(** The [explain] keyword argument of a request. *)
Definition request_explain (req : Request) : bool :=
  match req with
  | search _ _ _ e _ => e
  | search_phrases _ _ _ _ e _ => e
  end.

(** The members of the [Feature] enumeration, in definition order. *)
Definition feature_members : list Feature.t :=
  [Feature.NONE; Feature.UUID; Feature.INDEX; Feature.TARGET_HOSTNAME;
   Feature.TARGET_URI; Feature.TARGET; Feature.PAGE_RANK; Feature.SPAM_RANK;
   Feature.RANKS; Feature.TITLE_HIGHLIGHTED; Feature.TITLE_TEXT;
   Feature.TITLE; Feature.SNIPPET_HIGHLIGHTED; Feature.SNIPPET_TEXT;
   Feature.SNIPPET; Feature.EXPLANATION; Feature.HTML; Feature.HTML_PLAIN;
   Feature.ALL].

(** The columns the flattener may write. *)
Definition written_columns (self : ChatNoirRetrieve) : gset string :=
  {["docno"; "score"]} ∪ feature_columns self.

(** Two configurations agree on every field the search and the flattener
    read: all but [retries], [backoff_seconds] and [verbose]. *)
Definition same_search_fields (self other : ChatNoirRetrieve) : Prop :=
  api_key self = api_key other
  /\ index self = index other
  /\ phrases self = phrases other
  /\ slop self = slop other
  /\ features self = features other
  /\ filter_unknown self = filter_unknown other
  /\ num_results self = num_results other
  /\ page_size self = page_size other.

(** The members of an index set are told apart by their names, as the
    members of an enumeration are. *)
Definition index_names_distinct (c : IndexConf) : Prop :=
  match c with
  | IndexSet s => NoDup (Index.name <$> s)
  | OneIndex _ => True
  end.

Section Rows.

Variable client : Request -> list SearchResult.t.

(** The rows a query contributes. *)
Definition query_rows (self : ChatNoirRetrieve) (row : Row) (query : Value)
  : list Row :=
  _merge_result self row
    <$> capped self (surviving self (client (query_request self query))).

(** The flattened rows of a batch, query after query. *)
Definition batch_rows (self : ChatNoirRetrieve) (rows : list Row)
  : list Row :=
  concat ((fun r => query_rows self r (query_of r)) <$> rows).

End Rows.

(** * A worked example

    Two queries of the test fixtures against a service that answers the
    first with two results and the second with three, one of them with no
    document id. *)
Module Example.

Definition ClueWeb09 : Index.t :=
  {| Index.name := "ClueWeb09"; Index.value := VStr "cw09" |}.

Definition ClueWeb12 : Index.t :=
  {| Index.name := "ClueWeb12"; Index.value := VStr "cw12" |}.

Definition result (id : option string) (s : Z) : SearchResult.t :=
  {| SearchResult.trec_id := id;
     SearchResult.score := s;
     SearchResult.uuid := VStr "uuid";
     SearchResult.index := ClueWeb09;
     SearchResult.target_hostname := VStr "example.org";
     SearchResult.target_uri := VStr "https://example.org/";
     SearchResult.page_rank := VNone;
     SearchResult.spam_rank := VNone;
     SearchResult.title_html := VStr "<em>title</em>";
     SearchResult.title_text := VStr "title";
     SearchResult.snippet_html := VStr "<em>snippet</em>";
     SearchResult.snippet_text := VStr "snippet";
     SearchResult.explanation := VNone;
     SearchResult.html_contents :=
       fun plain => if plain then VStr "page" else VStr "<p>page</p>" |}.

Definition query_text (req : Request) : Value :=
  match req with
  | search _ q _ _ _ => q
  | search_phrases _ q _ _ _ _ => q
  end.

Definition client (req : Request) : list SearchResult.t :=
  match query_text req with
  | VStr "python library" =>
      [result (Some "doc-1") 5; result (Some "doc-2") 4]
  | VStr "search engine" =>
      [result (Some "doc-3") 9; result None 8; result (Some "doc-5") 7]
  | _ => []
  end.

(** The defaults of the dataclass, with one index. *)
Definition config : ChatNoirRetrieve :=
  {| api_key := "key";
     index := OneIndex ClueWeb09;
     phrases := false;
     slop := 0;
     features := OneFeature Feature.NONE;
     filter_unknown := false;
     num_results := Some 10;
     page_size := 100;
     retries := 5;
     backoff_seconds := 1;
     verbose := false |}.

(** [dataclasses.replace(self, ...)] for the fields the examples vary. *)
Definition with_features (self : ChatNoirRetrieve) (fs : FeatureConf)
  : ChatNoirRetrieve :=
  {| api_key := api_key self; index := index self; phrases := phrases self;
     slop := slop self; features := fs;
     filter_unknown := filter_unknown self;
     num_results := num_results self; page_size := page_size self;
     retries := retries self; backoff_seconds := backoff_seconds self;
     verbose := verbose self |}.

Definition with_num_results (self : ChatNoirRetrieve) (n : option Z)
  : ChatNoirRetrieve :=
  {| api_key := api_key self; index := index self; phrases := phrases self;
     slop := slop self; features := features self;
     filter_unknown := filter_unknown self;
     num_results := n; page_size := page_size self;
     retries := retries self; backoff_seconds := backoff_seconds self;
     verbose := verbose self |}.

Definition with_filter_unknown (self : ChatNoirRetrieve) (b : bool)
  : ChatNoirRetrieve :=
  {| api_key := api_key self; index := index self; phrases := phrases self;
     slop := slop self; features := features self;
     filter_unknown := b;
     num_results := num_results self; page_size := page_size self;
     retries := retries self; backoff_seconds := backoff_seconds self;
     verbose := verbose self |}.

Definition with_index (self : ChatNoirRetrieve) (i : IndexConf)
  : ChatNoirRetrieve :=
  {| api_key := api_key self; index := i; phrases := phrases self;
     slop := slop self; features := features self;
     filter_unknown := filter_unknown self;
     num_results := num_results self; page_size := page_size self;
     retries := retries self; backoff_seconds := backoff_seconds self;
     verbose := verbose self |}.

Definition topic (qid query : string) : Row :=
  {["qid" := VStr qid; "query" := VStr query]}.

Definition table (rows : list Row) : DataFrame :=
  {| columns := {["qid"; "query"]}; records := rows |}.

(** One query. *)
Definition one_topic : DataFrame := table [topic "1" "python library"].

(** Two queries with distinct ids. *)
Definition topics : DataFrame :=
  table [topic "1" "python library"; topic "2" "search engine"].

(** Query ids [q1, q1, q2]. *)
Definition repeated_topics : DataFrame :=
  table [topic "1" "python library"; topic "1" "python library";
         topic "2" "search engine"].

(** Query ids [q1, q1]. *)
Definition doubled_topic : DataFrame :=
  table [topic "1" "python library"; topic "1" "python library"].

(** The two columns and no rows. *)
Definition no_topics : DataFrame := table [].

(** A query the example service has no result for. *)
Definition quiet_topic : DataFrame := table [topic "3" "no such page"].

(** The example configuration with other retry, back-off and progress
    settings. *)
Definition patient_config : ChatNoirRetrieve :=
  {| api_key := api_key config; index := index config;
     phrases := phrases config; slop := slop config;
     features := features config;
     filter_unknown := filter_unknown config;
     num_results := num_results config; page_size := page_size config;
     retries := 9; backoff_seconds := 30; verbose := true |}.

(** Two declarations of the same index set and feature set. *)
Definition two_sets : ChatNoirRetrieve :=
  with_features (with_index config (IndexSet [ClueWeb09; ClueWeb12]))
    (FeatureSet [Feature.UUID; Feature.INDEX]).

Definition two_sets_reordered : ChatNoirRetrieve :=
  with_features (with_index config (IndexSet [ClueWeb12; ClueWeb09]))
    (FeatureSet [Feature.INDEX; Feature.UUID]).

End Example.

(** * Properties *)

(** ** Tables built from uniform records *)

Lemma fill_missing_id (cols : gset string) (r : Row) :
  cols ⊆ dom r -> fill_missing cols r = r.
Proof.
  intros Hsub. unfold fill_missing. apply map_eq. intros k.
  rewrite lookup_union. destruct (r !! k) as [v|] eqn:Hk.
  - by destruct (gset_to_gmap VNaN cols !! k).
  - rewrite lookup_gset_to_gmap, option_guard_False; [done|].
    intros Hin. apply Hsub, elem_of_dom in Hin. rewrite Hk in Hin.
    by destruct Hin.
Qed.

Lemma union_list_uniform (D : gset string) (l : list (gset string)) :
  Forall (fun X => X = D) l -> l <> [] -> ⋃ l = D.
Proof.
  induction 1 as [|X l -> _ IH]; [done|]. intros _. simpl.
  destruct l as [|Y l]; [set_solver|]. rewrite IH by done. set_solver.
Qed.

Lemma union_list_subseteq_uniform (D : gset string) (l : list (gset string)) :
  Forall (fun X => X = D) l -> ⋃ l ⊆ D.
Proof. induction 1 as [|X l -> _ IH]; simpl; set_solver. Qed.

Lemma fill_missing_covered (cols D : gset string) (rows : list Row) :
  cols ⊆ D -> Forall (fun r => dom r = D) rows ->
  fill_missing cols <$> rows = rows.
Proof.
  intros Hsub. induction 1 as [|r rows Hr _ IH]; [done|].
  rewrite fmap_cons, IH. f_equal. apply fill_missing_id. by rewrite Hr.
Qed.

Lemma fill_missing_uniform (D : gset string) (rows : list Row) :
  Forall (fun r => dom r = D) rows ->
  fill_missing (⋃ (dom <$> rows)) <$> rows = rows.
Proof.
  intros Hall. apply (fill_missing_covered _ D); [|done].
  apply union_list_subseteq_uniform. by apply Forall_fmap.
Qed.

Lemma DataFrame_of_records_uniform (D : gset string) (rows : list Row) :
  Forall (fun r => dom r = D) rows ->
  records (DataFrame_of_records rows) = rows.
Proof. intros Hall. simpl. by eapply fill_missing_uniform. Qed.

Lemma DataFrame_of_records_columns (D : gset string) (rows : list Row) :
  Forall (fun r => dom r = D) rows -> rows <> [] ->
  columns (DataFrame_of_records rows) = D.
Proof.
  intros Hall Hne. simpl. apply union_list_uniform.
  - by apply Forall_fmap.
  - by destruct rows.
Qed.

(** ** The flattener *)

Section Flattener.

Variable client : Request -> list SearchResult.t.

Lemma dom_set_if (b : bool) (key : string) (v : Value) (row : Row) :
  dom (set_if b key v row) = (if b then {[key]} else ∅) ∪ dom row.
Proof. destruct b; simpl; [apply dom_insert_L | set_solver]. Qed.

(** The columns of a flattened row do not depend on the result. *)
Lemma merge_result_dom self row result :
  dom (_merge_result self row result)
  = dom row ∪ {["docno"; "score"]} ∪ feature_columns self.
Proof.
  unfold _merge_result, feature_columns, feature_table, selected_column.
  rewrite !dom_set_if, !dom_insert_L.
  cbn [fmap list_fmap union_list fst snd]. set_solver.
Qed.

Lemma lookup_set_if_ne (b : bool) (key k : string) (v : Value) (row : Row) :
  key <> k -> set_if b key v row !! k = row !! k.
Proof. intros Hne. destruct b; simpl; [by rewrite lookup_insert_ne|done]. Qed.

(** Flattening keeps the query id of the topic row. *)
Lemma merge_result_qid self row result :
  _merge_result self row result !! "qid" = row !! "qid".
Proof.
  unfold _merge_result.
  rewrite !lookup_set_if_ne by done. by rewrite !lookup_insert_ne.
Qed.

(** Flattening writes the result's score. *)
Lemma merge_result_score self row result :
  score_of (_merge_result self row result)
  = Some (SearchResult.score result).
Proof.
  unfold score_of, _merge_result.
  rewrite !lookup_set_if_ne by done. by rewrite lookup_insert_eq.
Qed.

End Flattener.

(** ** The per-query transform *)

Section PerQuery.

Variable client : Request -> list SearchResult.t.

Lemma effective_features_ok self log :
  features_reducible self ->
  effective_features self log = (inr (union_of_flags self), log).
Proof.
  unfold features_reducible, effective_features, union_of_flags.
  destruct (features self) as [f|[|f s]]; intros Hne; try done.
Qed.

Lemma islice_ok {A} (it : list A) (stop : Z) log :
  0 <= stop <= sys_maxsize ->
  islice it stop log = (inr (take (Z.to_nat stop) it), log).
Proof.
  intros [H0 H1]. unfold islice.
  apply Z.leb_le in H0, H1. by rewrite H0, H1.
Qed.

Lemma islice_out_of_range {A} (it : list A) (stop : Z) log :
  stop < 0 \/ sys_maxsize < stop ->
  exists msg, islice it stop log = (inl (ValueError msg), log).
Proof.
  intros H. unfold islice.
  destruct (0 <=? stop) eqn:H0; destruct (stop <=? sys_maxsize) eqn:H1;
    simpl; eauto.
  apply Z.leb_le in H0, H1. lia.
Qed.

(** A per-query call on a one-row topic with a query text sends exactly
    one request, whatever the cap. *)
Lemma transform_query_log self topic row query log :
  features_reducible self ->
  records topic = [row] ->
  row !! "query" = Some query ->
  snd (_transform_query client self topic log)
  = (log ++ [query_request self query])%list.
Proof.
  intros Hf Hrow Hq. unfold _transform_query, bind. rewrite Hrow, Hq.
  rewrite effective_features_ok by done.
  unfold query_request, call.
  destruct (phrases self); simpl;
    (destruct (num_results self) as [n|]; [|done]);
    unfold islice;
    by destruct ((0 <=? n) && (n <=? sys_maxsize)).
Qed.

(** With a cap in range the call returns the table of [query_rows]. *)
Lemma transform_query_ok self topic row query log :
  features_reducible self ->
  cap_in_range self ->
  records topic = [row] ->
  row !! "query" = Some query ->
  _transform_query client self topic log
  = (inr (DataFrame_of_records (query_rows client self row query)),
     (log ++ [query_request self query])%list).
Proof.
  intros Hf Hcap Hrow Hq. unfold _transform_query, bind. rewrite Hrow, Hq.
  rewrite effective_features_ok by done.
  unfold query_rows, query_request, capped, surviving, call, cap_in_range in *.
  destruct (phrases self); simpl;
    (destruct (num_results self) as [n|]; [|done]);
    by rewrite islice_ok.
Qed.

(** The rows of one query all have the same columns. *)
Lemma query_rows_dom self row query :
  Forall (fun r => dom r
                   = dom row ∪ {["docno"; "score"]} ∪ feature_columns self)
         (query_rows client self row query).
Proof.
  unfold query_rows. apply Forall_fmap, Forall_forall. intros r _. simpl.
  apply merge_result_dom.
Qed.

Lemma query_rows_records self row query :
  records (DataFrame_of_records (query_rows client self row query))
  = query_rows client self row query.
Proof. eapply DataFrame_of_records_uniform, query_rows_dom. Qed.

Lemma transform_query_errors self topic log e log' :
  _transform_query client self topic log = (inl e, log') ->
  per_query_error e.
Proof.
  unfold _transform_query, per_query_error, bind, effective_features, reduce,
    call, islice, raise, ret.
  intros H. repeat case_match; simplify_eq; eauto 6.
Qed.

End PerQuery.

Section PerQueryClaims.

Variable client : Request -> list SearchResult.t.

(** C6: a per-query call hands the client the minimum of the configured
    page size and the result cap when a cap is set, and the configured
    page size when none is set.  The call is made on a one-row topic that
    has a query text, with a feature configuration that can be folded. *)
Theorem page_size_passed_to_client self topic row query log :
  features_reducible self ->
  records topic = [row] ->
  row !! "query" = Some query ->
  exists req,
    snd (_transform_query client self topic log) = (log ++ [req])%list
    /\ request_page_size req
       = match num_results self with
         | Some cap => Z.min (page_size self) cap
         | None => page_size self
         end.
Proof.
  intros Hf Hrow Hq. exists (query_request self query). split.
  - by eapply transform_query_log.
  - unfold query_request, effective_page_size. by destruct (phrases self).
Qed.

(** C7: with filter-unknown on, the rows returned are the flattened results
    that have a document id, in their order, and the cap is applied to the
    filtered stream; with filter-unknown off, no result is dropped before
    the cap, whether it has a document id or not. *)
Theorem filter_unknown_before_cap self topic row query log :
  features_reducible self ->
  cap_in_range self ->
  records topic = [row] ->
  row !! "query" = Some query ->
  exists req out,
    _transform_query client self topic log = (inr out, (log ++ [req])%list)
    /\ (filter_unknown self = true ->
        records out
        = _merge_result self row
            <$> capped self
                  (List.filter
                     (fun r => bool_decide (SearchResult.trec_id r <> None))
                     (client req)))
    /\ (filter_unknown self = false ->
        records out = _merge_result self row <$> capped self (client req)).
Proof.
  intros Hf Hcap Hrow Hq.
  exists (query_request self query). eexists. split.
  - by apply transform_query_ok.
  - rewrite query_rows_records. unfold query_rows, surviving.
    split; intros ->; [|done].
    do 2 f_equal. apply filter_ext. intros r. unfold known.
    by destruct (SearchResult.trec_id r).
Qed.

(** C8 (as amended): for a result cap [0 <= N <= sys.maxsize] the
    per-query transform returns at most [N] rows, the flattened first [N]
    results of the (possibly filtered) stream in stream order, and all of
    them when fewer than [N] are available. *)
Theorem result_cap_truncates self topic row query log N :
  features_reducible self ->
  num_results self = Some N ->
  0 <= N <= sys_maxsize ->
  records topic = [row] ->
  row !! "query" = Some query ->
  exists req out,
    _transform_query client self topic log = (inr out, (log ++ [req])%list)
    /\ records out
       = _merge_result self row
           <$> take (Z.to_nat N) (surviving self (client req))
    /\ Z.of_nat (length (records out)) <= N
    /\ (Z.of_nat (length (surviving self (client req))) <= N ->
        records out = _merge_result self row <$> surviving self (client req)).
Proof.
  intros Hf HN Hrange Hrow Hq.
  exists (query_request self query). eexists. split.
  - apply transform_query_ok; try done. unfold cap_in_range. by rewrite HN.
  - rewrite query_rows_records. unfold query_rows, capped. rewrite HN.
    split; [done|]. split.
    + rewrite length_fmap, length_take. lia.
    + intros Hle. rewrite firstn_all2; [done|]. lia.
Qed.

(** C10: with an empty set of flags every per-query call raises, and it
    does so before any request is sent; on a one-row topic with a query
    text the exception is the [TypeError] of the fold. *)
Theorem empty_feature_set_fails_before_search self topic log :
  features self = FeatureSet [] ->
  (exists e, _transform_query client self topic log = (inl e, log))
  /\ (forall row query,
        records topic = [row] -> row !! "query" = Some query ->
        exists msg,
          _transform_query client self topic log = (inl (TypeError msg), log)).
Proof.
  intros Hf. split.
  - unfold _transform_query, bind, effective_features. rewrite Hf.
    destruct (records topic) as [|row [|]]; [by eexists| |by eexists].
    destruct (row !! "query"); by eexists.
  - intros row query Hrow Hq.
    unfold _transform_query, bind, effective_features.
    rewrite Hf, Hrow, Hq. by eexists.
Qed.

End PerQueryClaims.

(** ** Grouping by query id *)

Lemma filter_none {A} (P : A -> Prop) `{forall x, Decision (P x)}
    (l : list A) :
  Forall (fun x => ~ P x) l -> filter P l = [].
Proof.
  induction 1 as [|x l Hx _ IH]; [done|].
  by rewrite filter_cons_False.
Qed.

Lemma filter_all {A} (P : A -> Prop) `{forall x, Decision (P x)}
    (l : list A) :
  Forall P l -> filter P l = l.
Proof.
  induction 1 as [|x l Hx _ IH]; [done|].
  rewrite filter_cons_True by done. by rewrite IH.
Qed.

Lemma first_seen_elem x l : x ∈ first_seen l -> x ∈ l.
Proof.
  revert x. induction l as [|y l IH]; intros x; simpl; [done|].
  rewrite !elem_of_cons, list_elem_of_filter. naive_solver.
Qed.

Lemma first_seen_NoDup l : NoDup l -> first_seen l = l.
Proof.
  induction 1 as [|x l Hx _ IH]; [done|]. simpl. rewrite IH. f_equal.
  apply filter_all, Forall_forall. intros y Hy ->. done.
Qed.

Lemma string_qids_cons_inv r rows qs :
  string_qids (r :: rows) qs ->
  exists q qs', qs = q :: qs' /\ r !! "qid" = Some (VStr q)
                /\ string_qids rows qs'.
Proof.
  unfold string_qids. destruct qs as [|q qs']; [done|].
  rewrite !fmap_cons. intros [= Hq Hrest]. eauto.
Qed.

Lemma string_qids_keys rows qs :
  string_qids rows qs -> omap (group_key "qid") rows = VStr <$> qs.
Proof.
  revert qs. induction rows as [|r rows IH]; intros qs H.
  - destruct qs; [done|]. unfold string_qids in H. done.
  - apply string_qids_cons_inv in H as (q & qs' & -> & Hq & Hrest).
    csimpl. unfold group_key at 1. rewrite Hq. csimpl.
    by rewrite (IH qs').
Qed.

Lemma string_qids_not_key rows qs q :
  string_qids rows qs -> q ∉ qs ->
  Forall (fun r => ~ group_key "qid" r = Some (VStr q)) rows.
Proof.
  revert qs. induction rows as [|r rows IH]; intros qs H Hq; [done|].
  apply string_qids_cons_inv in H as (q' & qs' & -> & Hq' & Hrest).
  apply not_elem_of_cons in Hq as [Hne Hq]. constructor.
  - unfold group_key. rewrite Hq'. simpl. congruence.
  - by eapply IH.
Qed.

#[local] Instance VStr_inj : Inj (=) (=) VStr.
Proof. by intros s1 s2 [= ->]. Qed.

(** Rows with pairwise distinct query ids form one group each, in table
    order. *)
Lemma groupby_distinct cols rows qs :
  string_qids rows qs -> NoDup qs ->
  groupby "qid" {| columns := cols; records := rows |}
  = (fun r => {| columns := cols; records := [r] |}) <$> rows.
Proof.
  intros Hqs Hnd. unfold groupby. simpl.
  rewrite (string_qids_keys _ _ Hqs).
  rewrite first_seen_NoDup by (by apply (NoDup_fmap_2 _)).
  rewrite <- list_fmap_compose.
  revert qs Hqs Hnd. induction rows as [|r rows IH]; intros qs Hqs Hnd.
  - destruct qs; [done|]. unfold string_qids in Hqs. done.
  - apply string_qids_cons_inv in Hqs as (q & qs' & -> & Hq & Hrest).
    apply NoDup_cons in Hnd as [Hq' Hnd]. rewrite !fmap_cons. f_equal.
    + simpl. f_equal. rewrite filter_cons_True.
      2:{ unfold group_key. by rewrite Hq. }
      f_equal. apply filter_none. by eapply string_qids_not_key.
    + rewrite <- (IH qs') by done. apply list_fmap_ext.
      intros i q0 Hq0. simpl. f_equal. rewrite filter_cons_False; [done|].
      unfold group_key. rewrite Hq. simpl. intros [= ->].
      apply Hq'. by eapply list_elem_of_lookup_2.
Qed.

(** ** The batch transform *)

Section Batch.

Variable client : Request -> list SearchResult.t.

Lemma groupby_apply_singletons self cols rows log :
  features_reducible self ->
  cap_in_range self ->
  Forall (fun r => is_Some (r !! "query")) rows ->
  groupby_apply (_transform_query client self)
    ((fun r => {| columns := cols; records := [r] |}) <$> rows) log
  = (inr ((fun r => DataFrame_of_records
                      (query_rows client self r (query_of r))) <$> rows),
     (log ++ batch_requests self rows)%list).
Proof.
  intros Hf Hcap Hq. revert log.
  induction Hq as [|r rows [q Hr] _ IH]; intros log.
  - simpl. unfold ret. by rewrite app_nil_r.
  - assert (Hr' : r !! "query" = Some (query_of r)).
    { unfold query_of. by rewrite Hr. }
    csimpl. unfold bind at 1.
    rewrite (transform_query_ok client self _ r (query_of r)) by done.
    unfold bind at 1. rewrite IH. unfold ret, batch_requests.
    csimpl. by rewrite <- app_assoc.
Qed.

(** An exception of the grouped apply is one a per-query call raised. *)
Lemma groupby_apply_errors self groups log e log' :
  groupby_apply (_transform_query client self) groups log = (inl e, log') ->
  per_query_error e.
Proof.
  revert log. induction groups as [|g groups IH]; intros log; [done|].
  simpl. unfold bind at 1.
  destruct (_transform_query client self g log) as [[e0|out] log0] eqn:Hg.
  - intros [= <- <-]. by eapply transform_query_errors.
  - unfold bind at 1.
    destruct (groupby_apply _ groups log0) as [[e1|outs] log1] eqn:Hrest.
    + intros [= <- <-]. by eapply IH.
    + done.
Qed.

Lemma batch_rows_dom self D rows :
  Forall (fun r => dom r = D) rows ->
  Forall (fun r => dom r = D ∪ {["docno"; "score"]} ∪ feature_columns self)
         (batch_rows client self rows).
Proof.
  intros Hall. unfold batch_rows. apply Forall_concat, Forall_fmap.
  eapply Forall_impl; [exact Hall|]. intros r Hr. simpl.
  rewrite <- Hr. apply query_rows_dom.
Qed.

Lemma query_frames_columns self D rows :
  Forall (fun r => dom r = D) rows ->
  Forall (fun X => X ⊆ D ∪ {["docno"; "score"]} ∪ feature_columns self)
    (columns <$> ((fun r => DataFrame_of_records
                     (query_rows client self r (query_of r))) <$> rows)).
Proof.
  intros Hall. rewrite <- list_fmap_compose. apply Forall_fmap.
  eapply Forall_impl; [exact Hall|]. intros r Hr. simpl.
  rewrite <- Hr. apply union_list_subseteq_uniform, Forall_fmap.
  apply query_rows_dom.
Qed.

Lemma union_list_bounded (D : gset string) (l : list (gset string)) :
  Forall (fun X => X ⊆ D) l -> ⋃ l ⊆ D.
Proof. induction 1; simpl; set_solver. Qed.

Lemma query_frames_records self rows :
  concat (records <$> ((fun r => DataFrame_of_records
                          (query_rows client self r (query_of r))) <$> rows))
  = batch_rows client self rows.
Proof.
  unfold batch_rows. f_equal. rewrite <- list_fmap_compose.
  apply list_fmap_ext. intros i r _. simpl.
  eapply fill_missing_uniform, query_rows_dom.
Qed.

(** The concatenated table holds the rows of the batch as they are. *)
Lemma concat_frames_records self D rows :
  Forall (fun r => dom r = D) rows ->
  records (concat_frames ((fun r => DataFrame_of_records
                             (query_rows client self r (query_of r))) <$> rows))
  = batch_rows client self rows.
Proof.
  intros Hall. unfold concat_frames. simpl records.
  rewrite query_frames_records.
  eapply fill_missing_covered; [|by apply batch_rows_dom].
  by apply union_list_bounded, query_frames_columns.
Qed.

(** It has a score column as soon as some query has a row. *)
Lemma concat_frames_score self rows :
  batch_rows client self rows <> [] ->
  "score" ∈ columns (concat_frames ((fun r => DataFrame_of_records
                      (query_rows client self r (query_of r))) <$> rows)).
Proof.
  unfold batch_rows, concat_frames. simpl columns.
  induction rows as [|r rows IH]; [done|].
  rewrite !fmap_cons. simpl concat. simpl union_list. intros Hne.
  destruct (query_rows client self r (query_of r)) as [|row0 qrows] eqn:Hq.
  - apply elem_of_union_r, IH. by rewrite app_nil_l in Hne.
  - apply elem_of_union_l. simpl. apply elem_of_union_l.
    pose proof (query_rows_dom client self r (query_of r)) as Hdom.
    rewrite Hq in Hdom. apply Forall_cons in Hdom as [-> _]. set_solver.
Qed.

(** A batch of rows with pairwise distinct query ids, a foldable
    feature configuration, a cap in range and at least one result row
    returns the ranked concatenation of its queries' rows, after one
    request per row. *)
Lemma transform_distinct_ok self df qs log :
  {["qid"; "query"]} ⊆ columns df ->
  well_formed df ->
  string_qids (records df) qs ->
  NoDup qs ->
  features_reducible self ->
  cap_in_range self ->
  batch_rows client self (records df) <> [] ->
  exists out,
    transform client self (IsDataFrame df) log
    = (inr out, (log ++ batch_requests self (records df))%list)
    /\ records out = rank_rows [] (batch_rows client self (records df)).
Proof.
  intros Hcols Hwf Hqs Hnd Hf Hcap Hne.
  assert (Hrows : records df <> []).
  { intros Hnil. by rewrite Hnil in Hne. }
  assert (Hquery : Forall (fun r : Row => is_Some (r !! "query")) (records df)).
  { eapply Forall_impl; [exact Hwf|]. intros r Hr. simpl in Hr.
    apply elem_of_dom. rewrite Hr. set_solver. }
  unfold transform. rewrite bool_decide_eq_true_2 by done.
  cbn [negb]. unfold df_len.
  destruct (Nat.eqb_spec (length (records df)) 0) as [Hlen|_].
  { by destruct (records df). }
  replace (groupby "qid" df)
    with ((fun r => {| columns := columns df; records := [r] |})
            <$> records df).
  2:{ symmetry. destruct df as [cols rows]. by eapply groupby_distinct. }
  unfold groupby_progress_apply.
  eexists. split.
  - unfold bind at 1.
    replace (if verbose self then _ else _)
      with (groupby_apply (_transform_query client self)
              ((fun r => {| columns := columns df; records := [r] |})
                 <$> records df)) by (by destruct (verbose self)).
    cbv beta. rewrite groupby_apply_singletons by done.
    unfold bind, sort_values_desc.
    rewrite decide_True by (by apply concat_frames_score).
    unfold ret. reflexivity.
  - simpl. f_equal. by eapply concat_frames_records.
Qed.

End Batch.

(** ** Ranks *)

Lemma count_rows_nil p : count_rows p [] = 0.
Proof. done. Qed.

Lemma count_rows_cons p x l :
  count_rows p (x :: l) = (if p x then 1 else 0) + count_rows p l.
Proof. unfold count_rows. simpl. destruct (p x); simpl length; lia. Qed.

Lemma count_rows_app p l1 l2 :
  count_rows p (l1 ++ l2) = count_rows p l1 + count_rows p l2.
Proof.
  induction l1 as [|x l1 IH]; [unfold count_rows; simpl; lia|].
  rewrite <- app_comm_cons, !count_rows_cons, IH. lia.
Qed.

Lemma count_rows_rev p l : count_rows p (rev l) = count_rows p l.
Proof.
  induction l as [|x l IH]; [done|].
  simpl rev. rewrite count_rows_app, !count_rows_cons, count_rows_nil, IH.
  lia.
Qed.

Lemma count_rows_nonneg p l : 0 <= count_rows p l.
Proof. unfold count_rows. lia. Qed.

Lemma count_rows_mono p q l :
  (forall r, p r = true -> q r = true) -> count_rows p l <= count_rows q l.
Proof.
  intros Hpq. induction l as [|x l IH]; [done|].
  rewrite !count_rows_cons. specialize (Hpq x).
  destruct (p x); [rewrite Hpq by done; lia|].
  destruct (q x); lia.
Qed.

Lemma count_rows_zero p l :
  Forall (fun r => p r = false) l -> count_rows p l = 0.
Proof.
  induction 1 as [|x l Hx _ IH]; [done|].
  rewrite count_rows_cons, Hx, IH. lia.
Qed.

Lemma rank_rows_length before rows :
  length (rank_rows before rows) = length rows.
Proof.
  revert before. induction rows as [|r rows IH]; intros before; [done|].
  simpl. by rewrite IH.
Qed.

(** The rank cell of the row that follows the prefix [a]. *)
Lemma rank_rows_middle before a x rest :
  rank_rows before (a ++ x :: rest) !! length a
  = Some (<["rank" := VNum (rank_of (rev a ++ before) x rest)]> x).
Proof.
  revert before. induction a as [|a0 a IH]; intros before; [done|].
  simpl. rewrite IH. by rewrite <- app_assoc.
Qed.

Lemma rank_rows_elem before a x rest :
  <["rank" := VNum (rank_of (rev a ++ before) x rest)]> x
  ∈ rank_rows before (a ++ x :: rest).
Proof. eapply list_elem_of_lookup_2, rank_rows_middle. Qed.

(** Each ranked row comes from the row at its position. *)
Lemma rank_rows_lookup_inv before rows i r' :
  rank_rows before rows !! i = Some r' ->
  exists x k, rows !! i = Some x /\ r' = <["rank" := VNum k]> x
              /\ FIRST_RANK <= k.
Proof.
  intros Hi.
  assert (Hlt : (i < length rows)%nat).
  { rewrite <- (rank_rows_length before). by eapply lookup_lt_Some. }
  destruct (lookup_lt_is_Some_2 rows i Hlt) as [x Hx].
  pose proof (take_drop_middle rows i x Hx) as Hsplit.
  pose proof (rank_rows_middle before (take i rows) x (drop (S i) rows))
    as Hmid.
  rewrite Hsplit, length_take, Nat.min_l in Hmid by lia.
  rewrite Hi in Hmid. injection Hmid as ->.
  eexists x, _. split; [done|]. split; [done|].
  unfold rank_of.
  pose proof (count_rows_nonneg
    (fun r' => same_qid x r' && score_ge r' x) (rev (take i rows) ++ before)).
  pose proof (count_rows_nonneg
    (fun r' => same_qid x r' && score_gt r' x) (drop (S i) rows)).
  lia.
Qed.

Lemma lookup_two_split {A} (l : list A) (i j : nat) x y :
  (i < j)%nat -> l !! i = Some x -> l !! j = Some y ->
  exists a b c, l = (a ++ x :: b ++ y :: c)%list
                /\ length a = i /\ length (a ++ x :: b)%list = j.
Proof.
  intros Hij Hx Hy.
  pose proof (take_drop_middle l i x Hx) as Hl.
  assert (Hy' : drop (S i) l !! (j - S i)%nat = Some y).
  { rewrite lookup_drop. rewrite <- Hy. f_equal. lia. }
  pose proof (take_drop_middle _ _ y Hy') as Hd.
  exists (take i l), (take (j - S i) (drop (S i) l)),
         (drop (S (j - S i)) (drop (S i) l)).
  assert (Hi : (i < length l)%nat) by (by eapply lookup_lt_Some).
  assert (Hj : (j < length l)%nat) by (by eapply lookup_lt_Some).
  split; [by rewrite Hd|]. split.
  - rewrite length_take. lia.
  - rewrite length_app. simpl. rewrite !length_take, length_drop. lia.
Qed.

Lemma score_of_insert_rank v (r : Row) :
  score_of (<["rank" := v]> r) = score_of r.
Proof. unfold score_of. by rewrite lookup_insert_ne. Qed.

Lemma qid_insert_rank v (r : Row) :
  <["rank" := v]> r !! "qid" = r !! "qid".
Proof. by rewrite lookup_insert_ne. Qed.

Lemma rank_value_insert k (r : Row) :
  rank_value (<["rank" := VNum k]> r) = Some k.
Proof. unfold rank_value. by rewrite lookup_insert_eq. Qed.

(** A higher-scoring row of the same query has the smaller rank, when it
    comes first ... *)
Lemma rank_of_lt_earlier before a x b y c sx sy :
  x !! "qid" = y !! "qid" ->
  score_of x = Some sx -> score_of y = Some sy -> sy < sx ->
  rank_of (rev a ++ before) x (b ++ y :: c)
  < rank_of (rev (a ++ x :: b) ++ before) y c.
Proof.
  intros Hq Hx Hy Hlt. unfold rank_of.
  rewrite rev_app_distr. simpl rev.
  rewrite !count_rows_app, !count_rows_rev, !count_rows_cons, count_rows_nil.
  assert (Hsame : forall r', same_qid x r' = same_qid y r').
  { intros r'. unfold same_qid. by rewrite Hq. }
  assert (Hself : same_qid y x = true).
  { unfold same_qid. by rewrite Hq, bool_decide_eq_true_2. }
  assert (Hxy : score_gt y x = false).
  { unfold score_gt. rewrite Hx, Hy. apply Z.ltb_ge. lia. }
  assert (Hyx : score_ge x y = true).
  { unfold score_ge. rewrite Hx, Hy. apply Z.leb_le. lia. }
  rewrite Hxy, Hself, Hyx, andb_false_r. simpl.
  assert (H1 : count_rows (fun r' => same_qid x r' && score_ge r' x) a
               <= count_rows (fun r' => same_qid y r' && score_ge r' y) a).
  { apply count_rows_mono. intros r'. rewrite Hsame.
    unfold score_ge. rewrite Hx, Hy. destruct (score_of r'); [|done].
    rewrite !andb_true_iff, !Z.leb_le. intros [-> ?]. split; [done|lia]. }
  assert (H2 : count_rows (fun r' => same_qid x r' && score_ge r' x) before
               <= count_rows (fun r' => same_qid y r' && score_ge r' y) before).
  { apply count_rows_mono. intros r'. rewrite Hsame.
    unfold score_ge. rewrite Hx, Hy. destruct (score_of r'); [|done].
    rewrite !andb_true_iff, !Z.leb_le. intros [-> ?]. split; [done|lia]. }
  assert (H3 : count_rows (fun r' => same_qid x r' && score_gt r' x) b
               <= count_rows (fun r' => same_qid y r' && score_ge r' y) b).
  { apply count_rows_mono. intros r'. rewrite Hsame.
    unfold score_ge, score_gt. rewrite Hx, Hy. destruct (score_of r'); [|done].
    rewrite !andb_true_iff, Z.leb_le, Z.ltb_lt. intros [-> ?].
    split; [done|lia]. }
  assert (H4 : count_rows (fun r' => same_qid x r' && score_gt r' x) c
               <= count_rows (fun r' => same_qid y r' && score_gt r' y) c).
  { apply count_rows_mono. intros r'. rewrite Hsame.
    unfold score_gt. rewrite Hx, Hy. destruct (score_of r'); [|done].
    rewrite !andb_true_iff, !Z.ltb_lt. intros [-> ?]. split; [done|lia]. }
  lia.
Qed.

(** ... and when it comes later. *)
Lemma rank_of_lt_later before a y b x c sx sy :
  x !! "qid" = y !! "qid" ->
  score_of x = Some sx -> score_of y = Some sy -> sy < sx ->
  rank_of (rev (a ++ y :: b) ++ before) x c
  < rank_of (rev a ++ before) y (b ++ x :: c).
Proof.
  intros Hq Hx Hy Hlt. unfold rank_of.
  rewrite rev_app_distr. simpl rev.
  rewrite !count_rows_app, !count_rows_rev, !count_rows_cons, count_rows_nil.
  assert (Hsame : forall r', same_qid x r' = same_qid y r').
  { intros r'. unfold same_qid. by rewrite Hq. }
  assert (Hself : same_qid y x = true).
  { unfold same_qid. by rewrite Hq, bool_decide_eq_true_2. }
  assert (Hxy : score_ge y x = false).
  { unfold score_ge. rewrite Hx, Hy. apply Z.leb_gt. lia. }
  assert (Hyx : score_gt x y = true).
  { unfold score_gt. rewrite Hx, Hy. apply Z.ltb_lt. lia. }
  rewrite Hxy, Hself, Hyx, andb_false_r. simpl.
  assert (H1 : count_rows (fun r' => same_qid x r' && score_ge r' x) a
               <= count_rows (fun r' => same_qid y r' && score_ge r' y) a).
  { apply count_rows_mono. intros r'. rewrite Hsame.
    unfold score_ge. rewrite Hx, Hy. destruct (score_of r'); [|done].
    rewrite !andb_true_iff, !Z.leb_le. intros [-> ?]. split; [done|lia]. }
  assert (H2 : count_rows (fun r' => same_qid x r' && score_ge r' x) before
               <= count_rows (fun r' => same_qid y r' && score_ge r' y) before).
  { apply count_rows_mono. intros r'. rewrite Hsame.
    unfold score_ge. rewrite Hx, Hy. destruct (score_of r'); [|done].
    rewrite !andb_true_iff, !Z.leb_le. intros [-> ?]. split; [done|lia]. }
  assert (H3 : count_rows (fun r' => same_qid x r' && score_ge r' x) b
               <= count_rows (fun r' => same_qid y r' && score_gt r' y) b).
  { apply count_rows_mono. intros r'. rewrite Hsame.
    unfold score_ge, score_gt. rewrite Hx, Hy. destruct (score_of r'); [|done].
    rewrite !andb_true_iff, Z.leb_le, Z.ltb_lt. intros [-> ?].
    split; [done|lia]. }
  assert (H4 : count_rows (fun r' => same_qid x r' && score_gt r' x) c
               <= count_rows (fun r' => same_qid y r' && score_gt r' y) c).
  { apply count_rows_mono. intros r'. rewrite Hsame.
    unfold score_gt. rewrite Hx, Hy. destruct (score_of r'); [|done].
    rewrite !andb_true_iff, !Z.ltb_lt. intros [-> ?]. split; [done|lia]. }
  lia.
Qed.

(** Within a query, a row that scores higher is ranked before a row that
    scores lower. *)
Lemma rank_rows_order rows i j ri rj si sj :
  rank_rows [] rows !! i = Some ri ->
  rank_rows [] rows !! j = Some rj ->
  ri !! "qid" = rj !! "qid" ->
  score_of ri = Some si -> score_of rj = Some sj -> sj < si ->
  exists ki kj,
    rank_value ri = Some ki /\ rank_value rj = Some kj /\ ki < kj.
Proof.
  intros Hi Hj Hq Hsi Hsj Hlt.
  destruct (rank_rows_lookup_inv _ _ _ _ Hi) as (x & kx & Hx & Ex & _).
  destruct (rank_rows_lookup_inv _ _ _ _ Hj) as (y & ky & Hy & Ey & _).
  assert (Hqxy : x !! "qid" = y !! "qid").
  { rewrite Ex, Ey in Hq. by rewrite !qid_insert_rank in Hq. }
  assert (Hsx : score_of x = Some si).
  { rewrite Ex in Hsi. by rewrite score_of_insert_rank in Hsi. }
  assert (Hsy : score_of y = Some sj).
  { rewrite Ey in Hsj. by rewrite score_of_insert_rank in Hsj. }
  destruct (Nat.lt_total i j) as [Hij|[Heq|Hji]].
  - destruct (lookup_two_split rows i j x y Hij Hx Hy)
      as (a & b & c & -> & Ha & Hab).
    pose proof (rank_rows_middle [] a x (b ++ y :: c)) as Mx.
    pose proof (rank_rows_middle [] (a ++ x :: b) y c) as My.
    rewrite <- app_assoc in My. simpl in My.
    rewrite Ha, Hi in Mx. rewrite Hab, Hj in My.
    injection Mx as ->. injection My as ->.
    eexists _, _. rewrite !rank_value_insert. split; [done|]. split; [done|].
    by eapply rank_of_lt_earlier.
  - subst j. rewrite Hx in Hy. injection Hy as <-.
    rewrite Hsx in Hsy. injection Hsy as <-. lia.
  - destruct (lookup_two_split rows j i y x Hji Hy Hx)
      as (a & b & c & -> & Ha & Hab).
    pose proof (rank_rows_middle [] a y (b ++ x :: c)) as My.
    pose proof (rank_rows_middle [] (a ++ y :: b) x c) as Mx.
    rewrite <- app_assoc in Mx. simpl in Mx.
    rewrite Ha, Hj in My. rewrite Hab, Hi in Mx.
    injection Mx as ->. injection My as ->.
    eexists _, _. rewrite !rank_value_insert. split; [done|]. split; [done|].
    by eapply rank_of_lt_later.
Qed.

(** Among the rows of one query there is one that no earlier row ties or
    beats and no later row beats. *)
Lemma top_row (rows : list Row) (q : option Value) :
  Forall (fun r => is_Some (score_of r)) rows ->
  Exists (fun r : Row => r !! "qid" = q) rows ->
  exists a x b,
    rows = (a ++ x :: b)%list /\ x !! "qid" = q
    /\ Forall (fun r' => same_qid x r' && score_ge r' x = false) a
    /\ Forall (fun r' => same_qid x r' && score_gt r' x = false) b.
Proof.
  induction rows as [|r rows IH]; intros Hnum Hex.
  { by apply Exists_nil in Hex. }
  apply Forall_cons in Hnum as [[sr Hsr] Hnum].
  destruct (decide (Exists (fun r' : Row => r' !! "qid" = q) rows))
    as [Hrest|Hrest].
  - destruct (IH Hnum Hrest) as (a & x & b & -> & Hx & Ha & Hb).
    apply Forall_app in Hnum as [Hna Hnxb].
    apply Forall_cons in Hnxb as [[sx Hsx] Hnb].
    destruct (same_qid x r && score_ge r x) eqn:Hr.
    + apply andb_true_iff in Hr as [Hqr Hge].
      apply bool_decide_eq_true_1 in Hqr.
      unfold score_ge in Hge. rewrite Hsr, Hsx in Hge. apply Z.leb_le in Hge.
      exists [], r, (a ++ x :: b)%list.
      assert (Hsame : forall r', same_qid r r' = same_qid x r').
      { intros r'. unfold same_qid. by rewrite Hqr. }
      split; [done|]. split; [congruence|]. split; [done|].
      apply Forall_app. split; [|apply Forall_cons; split].
      * apply Forall_forall. intros r' Hr'.
        pose proof (proj1 (Forall_forall _ _) Ha r' Hr') as H1.
        destruct (proj1 (Forall_forall _ _) Hna r' Hr') as [s' Hs'].
        simpl in *. rewrite Hsame.
        destruct (same_qid x r'); [|done]. simpl in *.
        unfold score_ge in H1. unfold score_gt.
        rewrite Hs', ?Hsx, ?Hsr in *. apply Z.leb_gt in H1. apply Z.ltb_ge. lia.
      * rewrite Hsame. unfold score_gt. rewrite Hsx, Hsr.
        apply andb_false_iff. right. apply Z.ltb_ge. lia.
      * apply Forall_forall. intros r' Hr'.
        pose proof (proj1 (Forall_forall _ _) Hb r' Hr') as H1.
        destruct (proj1 (Forall_forall _ _) Hnb r' Hr') as [s' Hs'].
        simpl in *. rewrite Hsame.
        destruct (same_qid x r'); [|done]. simpl in *.
        unfold score_gt in *.
        rewrite Hs', ?Hsx, ?Hsr in *. apply Z.ltb_ge in H1. apply Z.ltb_ge. lia.
    + exists (r :: a), x, b. split; [done|]. split; [done|].
      split; [|done]. by apply Forall_cons.
  - apply Exists_cons in Hex as [Hr|Hex]; [|done].
    exists [], r, rows. split; [done|]. split; [done|]. split; [done|].
    apply Forall_forall. intros r' Hr'. apply andb_false_iff. left.
    apply bool_decide_eq_false_2. rewrite Hr. intros Heq.
    apply Hrest, Exists_exists. eauto.
Qed.

(** Every query that has a row has a row of the first rank. *)
Lemma rank_rows_first rows r :
  Forall (fun r => is_Some (score_of r)) rows ->
  r ∈ rows ->
  exists r0, r0 ∈ rank_rows [] rows
             /\ r0 !! "qid" = r !! "qid"
             /\ rank_value r0 = Some FIRST_RANK.
Proof.
  intros Hnum Hr.
  destruct (top_row rows (r !! "qid") Hnum)
    as (a & x & b & -> & Hx & Ha & Hb).
  { apply Exists_exists. eauto. }
  eexists. split; [apply (rank_rows_elem [] a x b)|].
  rewrite qid_insert_rank, rank_value_insert. split; [done|].
  f_equal. unfold rank_of. rewrite app_nil_r, count_rows_rev.
  rewrite (count_rows_zero _ a) by done.
  rewrite (count_rows_zero _ b) by done. lia.
Qed.

Lemma rank_rows_qids before rows :
  (fun r : Row => r !! "qid") <$> rank_rows before rows
  = (fun r : Row => r !! "qid") <$> rows.
Proof.
  revert before. induction rows as [|r rows IH]; intros before; [done|].
  cbn [rank_rows]. rewrite !fmap_cons, IH. by rewrite qid_insert_rank.
Qed.

Section BatchFacts.

Variable client : Request -> list SearchResult.t.

Lemma query_rows_qids self r query :
  (fun r' : Row => r' !! "qid") <$> query_rows client self r query
  = replicate (length (query_rows client self r query)) (r !! "qid").
Proof.
  unfold query_rows.
  induction (capped self (surviving self (client (query_request self query))))
    as [|res l IH]; [done|].
  rewrite !fmap_cons, IH. simpl. by rewrite merge_result_qid.
Qed.

Lemma batch_rows_qids self rows :
  (fun r' : Row => r' !! "qid") <$> batch_rows client self rows
  = concat ((fun r => replicate
                        (length (query_rows client self r (query_of r)))
                        (r !! "qid")) <$> rows).
Proof.
  unfold batch_rows. induction rows as [|r rows IH]; [done|].
  rewrite !fmap_cons. simpl concat.
  by rewrite fmap_app, IH, query_rows_qids.
Qed.

Lemma batch_rows_scores self rows :
  Forall (fun r => is_Some (score_of r)) (batch_rows client self rows).
Proof.
  unfold batch_rows. apply Forall_concat, Forall_fmap, Forall_forall.
  intros r _. simpl. unfold query_rows. apply Forall_fmap, Forall_forall.
  intros res _. simpl. rewrite merge_result_score. by eexists.
Qed.

(** An empty table never reaches the search service. *)
Lemma transform_empty self df log :
  {["qid"; "query"]} ⊆ columns df ->
  records df = [] ->
  transform client self (IsDataFrame df) log
  = (inl (RuntimeError "Can only transform one query at a time."), log).
Proof.
  intros Hcols Hrows. unfold transform.
  rewrite bool_decide_eq_true_2 by done. cbn [negb].
  unfold df_len. rewrite Hrows. simpl.
  unfold _transform_query. by rewrite Hrows.
Qed.

(** The exceptions a well-shaped table can meet. *)
Lemma transform_errors self df log e log' :
  transform client self (IsDataFrame df) log = (inl e, log') ->
  e = RuntimeError "Needs qid and query columns."
  \/ per_query_error e
  \/ e = KeyError "score".
Proof.
  unfold transform.
  destruct (bool_decide ({["qid"; "query"]} ⊆ columns df)); cbn [negb].
  2:{ intros [= <- <-]. by left. }
  destruct (Nat.eqb (df_len df) 0).
  { intros H. right. left. by eapply transform_query_errors. }
  unfold bind at 1.
  replace (if verbose self then _ else _)
    with (groupby_apply (_transform_query client self) (groupby "qid" df))
    by (by destruct (verbose self)).
  destruct (groupby_apply _ _ log) as [[e0|outs] log0] eqn:Happly.
  { intros [= <- <-]. right. left. by eapply groupby_apply_errors. }
  unfold bind, sort_values_desc.
  destruct (decide ("score" ∈ columns (concat_frames outs))); [done|].
  intros [= <- <-]. by right; right.
Qed.

End BatchFacts.

Section BatchClaims.

Variable client : Request -> list SearchResult.t.

(** C2: a table with the query-id and query-text columns and no rows is
    handed to the per-query transform as it is, whose one-row guard then
    raises; the batch transform returns no table for it. *)
Theorem empty_batch_raises self df log :
  {["qid"; "query"]} ⊆ columns df ->
  records df = [] ->
  transform client self (IsDataFrame df) log
  = _transform_query client self df log
  /\ transform client self (IsDataFrame df) log
     = (inl (RuntimeError "Can only transform one query at a time."), log).
Proof.
  intros Hcols Hrows. split; [|by apply transform_empty].
  unfold transform. rewrite bool_decide_eq_true_2 by done. cbn [negb].
  unfold df_len. by rewrite Hrows.
Qed.

(** C9 (as amended): the error "Can only transform dataframes." is raised
    exactly when the input is not a table, the error "Needs qid and query
    columns." exactly when it is a table that lacks one of the two
    columns, and in both cases no request is sent. *)
Theorem input_shape_errors self topics log :
  (fst (transform client self topics log)
     = inl (RuntimeError "Can only transform dataframes.")
   <-> exists v, topics = NotDataFrame v)
  /\ (fst (transform client self topics log)
        = inl (RuntimeError "Needs qid and query columns.")
      <-> exists df, topics = IsDataFrame df
                     /\ ~ {["qid"; "query"]} ⊆ columns df)
  /\ ((exists v, topics = NotDataFrame v)
      \/ (exists df, topics = IsDataFrame df
                     /\ ~ {["qid"; "query"]} ⊆ columns df)
      -> snd (transform client self topics log) = log).
Proof.
  assert (Hbad : forall df : DataFrame,
            ~ {["qid"; "query"]} ⊆ columns df ->
            transform client self (IsDataFrame df) log
            = (inl (RuntimeError "Needs qid and query columns."), log)).
  { intros df Hno. unfold transform.
    by rewrite bool_decide_eq_false_2 by done. }
  assert (Hgood : forall (df : DataFrame) msg,
            {["qid"; "query"]} ⊆ columns df ->
            msg = "Can only transform dataframes."
            \/ msg = "Needs qid and query columns." ->
            fst (transform client self (IsDataFrame df) log)
            <> inl (RuntimeError msg)).
  { intros df msg Hcols Hmsg Herr.
    destruct (transform client self (IsDataFrame df) log)
      as [res log'] eqn:Hrun.
    simpl in Herr. subst res.
    pose proof Hrun as Hrun'. unfold transform in Hrun'.
    rewrite bool_decide_eq_true_2 in Hrun' by done. cbn [negb] in Hrun'.
    assert (Hper : per_query_error (RuntimeError msg)
                   \/ RuntimeError msg = KeyError "score").
    { destruct (transform_errors client self df log _ _ Hrun)
        as [Heq|[Hp|Hk]]; [|by left|by right].
      exfalso. clear Hrun.
      destruct (Nat.eqb (df_len df) 0).
      { apply transform_query_errors in Hrun'.
        unfold per_query_error in Hrun'.
        destruct Hmsg as [-> | ->]; naive_solver. }
      unfold bind at 1 in Hrun'.
      replace (if verbose self then _ else _)
        with (groupby_apply (_transform_query client self)
                (groupby "qid" df)) in Hrun'
        by (by destruct (verbose self)).
      destruct (groupby_apply _ _ log) as [[e0|outs] log0] eqn:Happly.
      { injection Hrun' as -> ->.
        apply groupby_apply_errors in Happly.
        unfold per_query_error in Happly.
        destruct Hmsg as [-> | ->]; naive_solver. }
      unfold bind, sort_values_desc in Hrun'.
      destruct (decide ("score" ∈ columns (concat_frames outs))); done. }
    unfold per_query_error in Hper.
    destruct Hmsg as [-> | ->]; naive_solver. }
  split; [|split].
  - split.
    + destruct topics as [df|v]; [|by eexists]. intros Herr.
      destruct (decide ({["qid"; "query"]} ⊆ columns df)) as [Hc|Hc].
      * exfalso. eapply Hgood; [exact Hc|by left|exact Herr].
      * by rewrite Hbad in Herr.
    + by intros [v ->].
  - split.
    + destruct topics as [df|v]; [|done]. intros Herr.
      exists df. split; [done|]. intros Hc.
      eapply Hgood; [exact Hc|by right|exact Herr].
    + intros (df & -> & Hno). by rewrite Hbad.
  - intros [[v ->]|(df & -> & Hno)]; [done|]. by rewrite Hbad.
Qed.

(** C3 (as amended): a batch with query ids [q1, q1, q2] is rejected by
    the one-row guard of the per-query transform before any request is
    sent.  A well-formed batch whose query ids are pairwise distinct, run
    with a foldable feature configuration and a cap in range and given at
    least one result, succeeds after one request per row: its rows fall
    into one group per query id, each query id labelling as many rows as
    the query has results left; every rank is at least the base rank,
    every group has a row of the base rank, and within a group the higher
    score has the smaller rank.  Nothing is said about the order of the
    rows. *)
Theorem distinct_query_ids_grouped_and_ranked self :
  (forall cols r1 r2 r3 q1 q2 log,
     {["qid"; "query"]} ⊆ cols ->
     r1 !! "qid" = Some (VStr q1) ->
     r2 !! "qid" = Some (VStr q1) ->
     r3 !! "qid" = Some (VStr q2) ->
     q1 <> q2 ->
     transform client self
       (IsDataFrame {| columns := cols; records := [r1; r2; r3] |}) log
     = (inl (RuntimeError "Can only transform one query at a time."), log))
  /\ (forall df qs log,
        {["qid"; "query"]} ⊆ columns df ->
        well_formed df ->
        string_qids (records df) qs ->
        NoDup qs ->
        features_reducible self ->
        cap_in_range self ->
        batch_rows client self (records df) <> [] ->
        exists out,
          transform client self (IsDataFrame df) log
          = (inr out, (log ++ batch_requests self (records df))%list)
          /\ (fun r : Row => r !! "qid") <$> records out
             ≡ₚ concat ((fun r => replicate
                           (length (query_rows client self r (query_of r)))
                           (r !! "qid")) <$> records df)
          /\ (forall r, r ∈ records out ->
                exists k, rank_value r = Some k /\ FIRST_RANK <= k)
          /\ (forall r, r ∈ records out ->
                exists r0, r0 ∈ records out
                           /\ r0 !! "qid" = r !! "qid"
                           /\ rank_value r0 = Some FIRST_RANK)
          /\ (forall i j ri rj si sj,
                records out !! i = Some ri ->
                records out !! j = Some rj ->
                ri !! "qid" = rj !! "qid" ->
                score_of ri = Some si -> score_of rj = Some sj ->
                sj < si ->
                exists ki kj, rank_value ri = Some ki
                              /\ rank_value rj = Some kj /\ ki < kj)).
Proof.
  split.
  - intros cols r1 r2 r3 q1 q2 log Hcols H1 H2 H3 Hne.
    unfold transform. cbn [columns].
    rewrite bool_decide_eq_true_2 by done.
    unfold df_len. cbn [negb records length Nat.eqb].
    assert (Hk : omap (group_key "qid") [r1; r2; r3]
                 = VStr <$> [q1; q1; q2]).
    { apply string_qids_keys. unfold string_qids. csimpl.
      by rewrite H1, H2, H3. }
    unfold groupby. cbn [records columns]. rewrite Hk.
    change (VStr <$> [q1; q1; q2]) with [VStr q1; VStr q1; VStr q2].
    cbn [first_seen].
    unfold groupby_progress_apply.
    replace (if verbose self then _ else _)
      with (groupby_apply (_transform_query client self)
        ((fun k => {| columns := cols;
                      records := filter
                        (fun r : Row => group_key "qid" r = Some k)
                        [r1; r2; r3] |})
         <$> VStr q1 :: filter (fun y => y <> VStr q1)
               (VStr q1 :: filter (fun y => y <> VStr q1)
                  (VStr q2 :: filter (fun y => y <> VStr q2) []))))
      by (by destruct (verbose self)).
    rewrite fmap_cons. cbn [groupby_apply].
    unfold bind at 1. unfold bind at 1.
    assert (Hg : filter (fun r : Row => group_key "qid" r = Some (VStr q1))
                   [r1; r2; r3] = [r1; r2]).
    { rewrite filter_cons_True by (unfold group_key; by rewrite H1).
      rewrite filter_cons_True by (unfold group_key; by rewrite H2).
      rewrite filter_cons_False; [done|].
      unfold group_key. rewrite H3. simpl. congruence. }
    unfold _transform_query at 1. cbn [records]. by rewrite Hg.
  - intros df qs log Hcols Hwf Hqs Hnd Hf Hcap Hne.
    destruct (transform_distinct_ok client self df qs log)
      as (out & Hrun & Hout); try done.
    exists out. split; [done|]. rewrite Hout.
    split; [by rewrite rank_rows_qids, batch_rows_qids|].
    split; [|split].
    + intros r Hr. apply list_elem_of_lookup in Hr as [i Hi].
      destruct (rank_rows_lookup_inv _ _ _ _ Hi) as (x & k & _ & -> & Hk).
      exists k. by rewrite rank_value_insert.
    + intros r Hr. apply list_elem_of_lookup in Hr as [i Hi].
      destruct (rank_rows_lookup_inv _ _ _ _ Hi) as (x & k & Hx & -> & _).
      rewrite qid_insert_rank.
      apply rank_rows_first; [apply batch_rows_scores|].
      by eapply list_elem_of_lookup_2.
    + intros i j ri rj si sj. apply rank_rows_order.
Qed.

End BatchClaims.

(** ** Feature columns *)

Section FeatureColumns.

Lemma set_contains_app {A} `{EqDecision A} (s1 s2 : PySet A) (x : A) :
  set_contains (s1 ++ s2)%list x = set_contains s1 x || set_contains s2 x.
Proof.
  unfold set_contains.
  destruct (bool_decide (x ∈ s1)) eqn:H1; destruct (bool_decide (x ∈ s2)) eqn:H2;
    simpl;
    [apply bool_decide_eq_true_2 ..|apply bool_decide_eq_false_2];
    rewrite elem_of_app;
    try apply bool_decide_eq_true_1 in H1;
    try apply bool_decide_eq_true_1 in H2;
    try apply bool_decide_eq_false_1 in H1;
    try apply bool_decide_eq_false_1 in H2;
    tauto.
Qed.

(** Containment of a single-bit flag is a bit test. *)
Lemma contains_bit (self : Feature.t) (k : N) :
  Feature.contains self (2 ^ k)%N = N.testbit self k.
Proof.
  unfold Feature.contains.
  assert (Hland : N.land (2 ^ k) self
                  = if N.testbit self k then (2 ^ k)%N else 0%N).
  { apply N.bits_inj. intros n. rewrite N.land_spec, N.pow2_bits_eqb.
    destruct (N.eqb_spec k n) as [->|Hne].
    - destruct (N.testbit self n); [by rewrite N.pow2_bits_true|
                                    by rewrite N.bits_0].
    - simpl. destruct (N.testbit self k); [|by rewrite N.bits_0].
      rewrite N.pow2_bits_false; [done|]. congruence. }
  rewrite Hland. destruct (N.testbit self k).
  - apply N.eqb_refl.
  - apply N.eqb_neq. intros H0. symmetry in H0.
    by apply N.pow_nonzero in H0.
Qed.

Lemma contains_or_bit (a b : Feature.t) (k : N) :
  Feature.contains (Feature.or a b) (2 ^ k)%N
  = Feature.contains a (2 ^ k)%N || Feature.contains b (2 ^ k)%N.
Proof. rewrite !contains_bit. apply N.lor_spec. Qed.

Lemma feature_table_bits :
  fst <$> feature_table = (fun k => (2 ^ k)%N) <$> (N.of_nat <$> seq 0 13).
Proof. reflexivity. Qed.

Lemma contains_or_tested (a b : Feature.t) (entry : Feature.t * string) :
  entry ∈ feature_table ->
  Feature.contains (Feature.or a b) (fst entry)
  = Feature.contains a (fst entry) || Feature.contains b (fst entry).
Proof.
  intros Hin.
  assert (Hf : fst entry ∈ (fun k => (2 ^ k)%N) <$> (N.of_nat <$> seq 0 13)).
  { change (fst entry ∈ fst <$> feature_table).
    apply list_elem_of_fmap. eauto. }
  apply list_elem_of_fmap in Hf as (k & -> & _). apply contains_or_bit.
Qed.

Lemma if_orb_union (a b : bool) (S : gset string) :
  (if a || b then S else ∅) = (if a then S else ∅) ∪ (if b then S else ∅).
Proof. destruct a, b; simpl; set_solver. Qed.

(** If a configuration answers every membership test as the disjunction
    of two others, it selects the union of their columns. *)
Lemma feature_columns_union self1 self2 self12 :
  (forall entry, entry ∈ feature_table ->
     feature_in self12 (fst entry)
     = feature_in self1 (fst entry) || feature_in self2 (fst entry)) ->
  feature_columns self12 = feature_columns self1 ∪ feature_columns self2.
Proof.
  unfold feature_columns. induction feature_table as [|entry table IH].
  - intros _. simpl. set_solver.
  - intros Hall. rewrite !fmap_cons. simpl union_list.
    rewrite IH by (intros e He; apply Hall; by right).
    unfold selected_column at 1 3 5. rewrite Hall by left.
    rewrite if_orb_union. set_solver.
Qed.

(** Union-closure for flag values: the columns selected by [f1 | f2] are
    those selected by [f1] together with those selected by [f2]. *)
Lemma feature_columns_flag_union self1 self2 self12 f1 f2 :
  features self1 = OneFeature f1 ->
  features self2 = OneFeature f2 ->
  features self12 = OneFeature (Feature.or f1 f2) ->
  feature_columns self12 = feature_columns self1 ∪ feature_columns self2.
Proof.
  intros H1 H2 H12. apply feature_columns_union. intros entry Hin.
  unfold feature_in. rewrite H1, H2, H12. by apply contains_or_tested.
Qed.

(** Union-closure for sets of flags, by membership. *)
Lemma feature_columns_set_union self1 self2 self12 s1 s2 :
  features self1 = FeatureSet s1 ->
  features self2 = FeatureSet s2 ->
  features self12 = FeatureSet (s1 ++ s2)%list ->
  feature_columns self12 = feature_columns self1 ∪ feature_columns self2.
Proof.
  intros H1 H2 H12. apply feature_columns_union. intros entry Hin.
  unfold feature_in. rewrite H1, H2, H12. apply set_contains_app.
Qed.

End FeatureColumns.

(** C5: the flattener tests membership in the configuration as it was
    given.  A group flag inside a set of flags is no element's equal, so
    it selects no column, whereas the same group flag given as a flag
    value selects the columns of both of its members. *)
Theorem group_flag_in_set_selects_no_column self row result :
  (features self = FeatureSet [Feature.TARGET] ->
   dom (_merge_result self row result) = dom row ∪ {["docno"; "score"]})
  /\ (features self = OneFeature Feature.TARGET ->
      dom (_merge_result self row result)
      = dom row ∪ {["docno"; "score"]}
          ∪ {["target_hostname"; "target_uri"]}).
Proof.
  split; intros Hf; rewrite merge_result_dom;
    unfold feature_columns, feature_table, selected_column, feature_in;
    rewrite Hf; cbn [fmap list_fmap union_list fst snd];
    repeat match goal with
           | |- context [set_contains ?s ?f] =>
               let b := eval vm_compute in (set_contains s f) in
               change (set_contains s f) with b
           | |- context [Feature.contains ?s ?f] =>
               let b := eval vm_compute in (Feature.contains s f) in
               change (Feature.contains s f) with b
           end; cbv iota; set_solver.
Qed.

(** ** Hashing *)

Section HashFacts.

Variable pyhash : PyKey -> Z.

(** C4: [__hash__] turns a set of flags into a list, which cannot be
    hashed (and sorting two or more flags already fails): hashing a
    configuration whose features are a set raises [TypeError]. *)
Theorem hash_of_feature_set_raises self s :
  features self = FeatureSet s ->
  exists msg, __hash__ pyhash self = inl (TypeError msg).
Proof.
  intros Hf. unfold __hash__, features_key. rewrite Hf.
  destruct s as [|f [|g s]]; simpl; eauto.
  - unfold hash. simpl. rewrite !andb_false_r. eauto.
  - unfold hash. simpl. rewrite !andb_false_r. eauto.
Qed.

Lemma insert_by_key_Permutation {A} (key : A -> string) x l :
  insert_by_key key x l ≡ₚ x :: l.
Proof.
  induction l as [|y l IH]; [done|]. simpl.
  destruct (String.leb (key x) (key y)); [done|].
  rewrite IH. apply Permutation_swap.
Qed.

Lemma sorted_by_key_Permutation {A} (key : A -> string) l :
  sorted_by_key key l ≡ₚ l.
Proof.
  induction l as [|x l IH]; [done|]. simpl.
  rewrite insert_by_key_Permutation. by rewrite IH.
Qed.

Lemma insert_by_key_Sorted {A} (key : A -> string) x l :
  Sorted (key_le key) l -> Sorted (key_le key) (insert_by_key key x l).
Proof.
  induction 1 as [|y l Hl IH Hhd]; simpl.
  - by repeat constructor.
  - destruct (String.leb (key x) (key y)) eqn:Hxy.
    + constructor; [by constructor|]. constructor.
      unfold key_le, String.le. by rewrite Hxy.
    + constructor; [done|].
      assert (Hyx : key_le key y x).
      { unfold key_le. destruct (total String.le (key x) (key y)) as [H|H];
          [|done]. unfold String.le in H. by rewrite Hxy in H. }
      destruct Hhd as [|z l' Hyz]; simpl; [by constructor|].
      destruct (String.leb (key x) (key z)); by constructor.
Qed.

Lemma sorted_by_key_Sorted {A} (key : A -> string) l :
  Sorted (key_le key) (sorted_by_key key l).
Proof.
  induction l as [|x l IH]; simpl; [constructor|].
  by apply insert_by_key_Sorted.
Qed.

#[local] Instance key_le_trans {A} (key : A -> string) :
  Transitive (key_le key).
Proof. intros x y z. unfold key_le. apply transitivity. Qed.

(** Sorting by a key that tells the elements apart forgets the order in
    which the elements were given. *)
Lemma sorted_by_key_order_independent {A} (key : A -> string) l1 l2 :
  l1 ≡ₚ l2 -> NoDup (key <$> l1) ->
  sorted_by_key key l1 = sorted_by_key key l2.
Proof.
  intros Hperm Hnd.
  apply (Sorted_unique_strong (key_le key));
    [|apply sorted_by_key_Sorted..|].
  - intros x1 x2 H1 H2 Hle1 Hle2.
    rewrite sorted_by_key_Permutation in H1.
    rewrite sorted_by_key_Permutation, <- Hperm in H2.
    assert (Hk : key x1 = key x2) by (by apply (anti_symm String.le)).
    apply list_elem_of_lookup in H1 as [i Hi].
    apply list_elem_of_lookup in H2 as [j Hj].
    assert (Hij : i = j).
    { eapply NoDup_lookup; [exact Hnd| |].
      - by rewrite list_lookup_fmap, Hi.
      - by rewrite list_lookup_fmap, Hj, Hk. }
    subst j. congruence.
  - by rewrite !sorted_by_key_Permutation.
Qed.

Lemma set_equal_Permutation {A} `{EqDecision A} (s1 s2 : PySet A) :
  s1 ≡ₚ s2 -> set_equal s1 s2 = true.
Proof.
  intros Hperm. unfold set_equal. apply andb_true_iff.
  split; apply forallb_forall; intros x Hx; apply bool_decide_eq_true_2;
    apply list_elem_of_In in Hx; [by rewrite <- Hperm | by rewrite Hperm].
Qed.

Lemma eq_refl_fields self other :
  api_key self = api_key other -> phrases self = phrases other ->
  slop self = slop other -> filter_unknown self = filter_unknown other ->
  num_results self = num_results other -> page_size self = page_size other ->
  retries self = retries other ->
  backoff_seconds self = backoff_seconds other ->
  verbose self = verbose other ->
  __eq__ self other
  = index_eq (index self) (index other)
    && features_eq (features self) (features other).
Proof.
  unfold __eq__. intros -> -> -> -> -> -> -> -> ->.
  rewrite String.eqb_refl, !Z.eqb_refl, !Bool.eqb_reflx.
  rewrite bool_decide_eq_true_2 by done.
  by rewrite !andb_true_r.
Qed.

(** X16: Configurations that differ only in the order in which the elements of
    their index set and feature set were given compare equal. *)
Lemma eq_order_independent self other si si' sf sf' :
  api_key self = api_key other -> phrases self = phrases other ->
  slop self = slop other -> filter_unknown self = filter_unknown other ->
  num_results self = num_results other -> page_size self = page_size other ->
  retries self = retries other ->
  backoff_seconds self = backoff_seconds other ->
  verbose self = verbose other ->
  index self = IndexSet si -> index other = IndexSet si' -> si ≡ₚ si' ->
  features self = FeatureSet sf -> features other = FeatureSet sf' ->
  sf ≡ₚ sf' ->
  __eq__ self other = true.
Proof.
  intros ????????? Hi Hi' Hpi Hf Hf' Hpf.
  rewrite eq_refl_fields by done. rewrite Hi, Hi', Hf, Hf'. simpl.
  by rewrite !set_equal_Permutation.
Qed.

(** With the features given as a flag value, hashing succeeds and does
    not depend on the order in which an index set was given. *)
Lemma hash_index_order_independent self other si si' f :
  api_key self = api_key other -> phrases self = phrases other ->
  slop self = slop other -> filter_unknown self = filter_unknown other ->
  num_results self = num_results other -> page_size self = page_size other ->
  retries self = retries other ->
  backoff_seconds self = backoff_seconds other ->
  verbose self = verbose other ->
  index self = IndexSet si -> index other = IndexSet si' -> si ≡ₚ si' ->
  NoDup (Index.name <$> si) ->
  features self = OneFeature f -> features other = OneFeature f ->
  __hash__ pyhash self = __hash__ pyhash other
  /\ exists h, __hash__ pyhash self = inr h.
Proof.
  intros Ha Hp Hs Hu Hn Hps Hr Hb Hv Hi Hi' Hperm Hnd Hf Hf'.
  unfold __hash__, features_key, index_key, num_results_key.
  rewrite Ha, Hp, Hs, Hu, Hn, Hps, Hr, Hb, Hv, Hi, Hi', Hf, Hf'.
  rewrite (sorted_by_key_order_independent Index.name si si') by done.
  split; [done|]. unfold hash.
  assert (Hh : forallb hashable (KIndex <$> sorted_by_key Index.name si')
               = true).
  { apply forallb_forall. intros k Hk. apply list_elem_of_In in Hk.
    apply list_elem_of_fmap in Hk as (i & -> & _). done. }
  cbn [hashable forallb]. rewrite Hh.
  destruct (num_results other); simpl; eauto.
Qed.

End HashFacts.

(** * The worked example, evaluated *)

(** C1: the sorted copy that [sort_values] returns is dropped, so the
    table that is ranked and returned keeps the order of concatenation.
    For the two example queries the scores come out as 5, 4, 9, 8, 7,
    which is not descending. *)
Theorem sort_result_discarded :
  exists out log,
    transform Example.client Example.config (IsDataFrame Example.topics) []
    = (inr out, log)
    /\ score_of <$> records out = [Some 5; Some 4; Some 9; Some 8; Some 7]
    /\ ~ Sorted score_desc (records out).
Proof.
  set (run := transform Example.client Example.config
                (IsDataFrame Example.topics) []).
  assert (Hscores :
            match fst run with
            | inr out => score_of <$> records out
            | inl _ => []
            end = [Some 5; Some 4; Some 9; Some 8; Some 7])
    by (vm_compute; reflexivity).
  assert (Hsorted :
            match fst run with
            | inr out => bool_decide (Sorted score_desc (records out))
            | inl _ => true
            end = false)
    by (vm_compute; reflexivity).
  clearbody run. destruct run as [[e|out] log]; simpl in *; [discriminate|].
  exists out, log. split; [done|]. split; [done|].
  exact (bool_decide_eq_false_1 _ Hsorted).
Qed.

Lemma example_columns_ok (rows : list Row) :
  {["qid"; "query"]} ⊆ columns (Example.table rows).
Proof. done. Defined.

Lemma page_size_passed_to_client_witness :
  exists req,
    snd (_transform_query Example.client Example.config Example.one_topic [])
    = [req]
    /\ request_page_size req = 10.
Proof.
  apply (page_size_passed_to_client Example.client Example.config
           Example.one_topic (Example.topic "1" "python library")
           (VStr "python library") []).
  - discriminate.
  - reflexivity.
  - vm_compute. reflexivity.
Defined.

Lemma filter_unknown_before_cap_witness :
  exists out,
    fst (_transform_query Example.client
           (Example.with_filter_unknown Example.config true)
           (Example.table [Example.topic "2" "search engine"]) [])
    = inr out
    /\ (fun r : Row => r !! "docno") <$> records out
       = [Some (VStr "doc-3"); Some (VStr "doc-5")].
Proof.
  destruct (filter_unknown_before_cap Example.client
              (Example.with_filter_unknown Example.config true)
              (Example.table [Example.topic "2" "search engine"])
              (Example.topic "2" "search engine")
              (VStr "search engine") [])
    as (req & out & Hrun & Hon & _).
  - discriminate.
  - unfold cap_in_range, sys_maxsize. simpl. lia.
  - reflexivity.
  - vm_compute. reflexivity.
  - exists out. rewrite Hrun. split; [reflexivity|].
    rewrite (Hon eq_refl).
    assert (Hreq : req = search "key" (VStr "search engine")
                           (OneIndex Example.ClueWeb09) false 10).
    { vm_compute in Hrun. by injection Hrun as _ <-. }
    rewrite Hreq. vm_compute. reflexivity.
Defined.

Lemma result_cap_truncates_witness :
  exists out,
    fst (_transform_query Example.client
           (Example.with_num_results Example.config (Some 2))
           (Example.table [Example.topic "2" "search engine"]) [])
    = inr out
    /\ Z.of_nat (length (records out)) <= 2.
Proof.
  destruct (result_cap_truncates Example.client
              (Example.with_num_results Example.config (Some 2))
              (Example.table [Example.topic "2" "search engine"])
              (Example.topic "2" "search engine")
              (VStr "search engine") [] 2)
    as (req & out & Hrun & _ & Hlen & _).
  - discriminate.
  - reflexivity.
  - unfold sys_maxsize. lia.
  - reflexivity.
  - vm_compute. reflexivity.
  - exists out. rewrite Hrun. split; [reflexivity|exact Hlen].
Defined.

(** C8 as stated fails above [sys.maxsize]: a cap of [2^63] is not
    negative, yet the truncation step raises instead of returning a
    table. *)
Lemma result_cap_above_maxsize_raises :
  0 <= 2 ^ 63
  /\ _transform_query Example.client
       (Example.with_num_results Example.config (Some (2 ^ 63)))
       Example.one_topic []
     = (inl (ValueError
          "Stop argument for islice() must be None or an integer: 0 <= x <= sys.maxsize."),
        [search "key" (VStr "python library") (OneIndex Example.ClueWeb09)
                false 100]).
Proof. split; [lia|]. vm_compute. reflexivity. Qed.

Lemma empty_feature_set_fails_before_search_witness :
  exists msg,
    _transform_query Example.client
      (Example.with_features Example.config (FeatureSet []))
      Example.one_topic []
    = (inl (TypeError msg), []).
Proof.
  apply (proj2 (empty_feature_set_fails_before_search Example.client
                  (Example.with_features Example.config (FeatureSet []))
                  Example.one_topic [] eq_refl)
           (Example.topic "1" "python library") (VStr "python library")).
  - reflexivity.
  - vm_compute. reflexivity.
Defined.

Lemma empty_batch_raises_witness :
  transform Example.client Example.config (IsDataFrame Example.no_topics) []
  = (inl (RuntimeError "Can only transform one query at a time."), []).
Proof.
  apply (empty_batch_raises Example.client Example.config
           Example.no_topics []).
  - apply example_columns_ok.
  - reflexivity.
Defined.

(** C9 as stated fails on a table that has both columns: two rows with
    the same query id make the batch transform raise all the same. *)
Lemma well_shaped_batch_raises :
  {["qid"; "query"]} ⊆ columns Example.doubled_topic
  /\ transform Example.client Example.config
       (IsDataFrame Example.doubled_topic) []
     = (inl (RuntimeError "Can only transform one query at a time."), []).
Proof. split; [apply example_columns_ok|]. vm_compute. reflexivity. Qed.

(** C3 as stated fails: the batch with query ids [q1, q1, q2] returns no
    table. *)
Lemma repeated_query_ids_rejected :
  (fun r : Row => r !! "qid") <$> records Example.repeated_topics
  = [Some (VStr "1"); Some (VStr "1"); Some (VStr "2")]
  /\ ~ exists out log,
         transform Example.client Example.config
           (IsDataFrame Example.repeated_topics) []
         = (inr out, log).
Proof.
  split; [vm_compute; reflexivity|].
  intros (out & log & Hrun). vm_compute in Hrun. discriminate.
Qed.

Lemma distinct_query_ids_grouped_and_ranked_witness :
  transform Example.client Example.config
    (IsDataFrame Example.repeated_topics) []
  = (inl (RuntimeError "Can only transform one query at a time."), [])
  /\ exists out,
       fst (transform Example.client Example.config
              (IsDataFrame Example.topics) [])
       = inr out
       /\ (fun r : Row => r !! "qid") <$> records out
          ≡ₚ [Some (VStr "1"); Some (VStr "1");
              Some (VStr "2"); Some (VStr "2"); Some (VStr "2")].
Proof.
  destruct (distinct_query_ids_grouped_and_ranked Example.client
              Example.config) as [Hrepeated Hdistinct].
  split.
  - apply (Hrepeated {["qid"; "query"]}
             (Example.topic "1" "python library")
             (Example.topic "1" "python library")
             (Example.topic "2" "search engine") "1" "2" []).
    + done.
    + vm_compute. reflexivity.
    + vm_compute. reflexivity.
    + vm_compute. reflexivity.
    + discriminate.
  - destruct (Hdistinct Example.topics ["1"; "2"] [])
      as (out & Hrun & Hqids & _).
    + apply example_columns_ok.
    + unfold well_formed. repeat constructor; vm_compute; reflexivity.
    + vm_compute. reflexivity.
    + apply (bool_decide_unpack _). vm_compute. exact I.
    + discriminate.
    + unfold cap_in_range, sys_maxsize. simpl. lia.
    + intros Hnil. apply (f_equal length) in Hnil.
      vm_compute in Hnil. discriminate.
    + exists out. rewrite Hrun. split; [reflexivity|].
      etrans; [exact Hqids|]. vm_compute. reflexivity.
Defined.

Lemma group_flag_in_set_selects_no_column_witness :
  dom (_merge_result
         (Example.with_features Example.config
            (FeatureSet [Feature.TARGET]))
         (Example.topic "1" "python library")
         (Example.result (Some "doc-1") 5))
  = dom (Example.topic "1" "python library") ∪ {["docno"; "score"]}.
Proof.
  apply (proj1 (group_flag_in_set_selects_no_column
                  (Example.with_features Example.config
                     (FeatureSet [Feature.TARGET]))
                  (Example.topic "1" "python library")
                  (Example.result (Some "doc-1") 5))).
  reflexivity.
Defined.

Lemma hash_of_feature_set_raises_witness :
  exists msg,
    __hash__ (fun _ => 0)
      (Example.with_features Example.config
         (FeatureSet [Feature.UUID; Feature.INDEX]))
    = inl (TypeError msg).
Proof.
  apply (hash_of_feature_set_raises (fun _ => 0)
           (Example.with_features Example.config
              (FeatureSet [Feature.UUID; Feature.INDEX]))
           [Feature.UUID; Feature.INDEX]).
  reflexivity.
Defined.

Lemma input_shape_errors_witness :
  transform Example.client Example.config (NotDataFrame VNone) []
  = (inl (RuntimeError "Can only transform dataframes."), []).
Proof.
  destruct (input_shape_errors Example.client Example.config
              (NotDataFrame VNone) []) as [[_ Hnot] [_ Hlog]].
  assert (Hshape : exists v, NotDataFrame VNone = NotDataFrame v)
    by (by exists VNone).
  specialize (Hnot Hshape). specialize (Hlog (or_introl Hshape)).
  destruct (transform Example.client Example.config (NotDataFrame VNone) [])
    as [res log]. simpl in *. by subst.
Defined.

(** * Further properties of the adapter *)

(** ** The flattener, cell by cell *)

Lemma merge_result_docno self row result :
  _merge_result self row result !! "docno" = Some (docno_of result).
Proof.
  unfold _merge_result. rewrite !lookup_set_if_ne by done.
  by rewrite lookup_insert_ne, lookup_insert_eq.
Qed.

(** X1: The document id and the score of a flattened row are those of the
    result, whatever the topic row held under these labels and whatever
    the feature configuration. *)
Theorem merge_result_docno_score self row result :
  _merge_result self row result !! "docno"
  = Some (match SearchResult.trec_id result with
          | Some id => VStr id
          | None => VNone
          end)
  /\ _merge_result self row result !! "score"
     = Some (VNum (SearchResult.score result)).
Proof.
  unfold _merge_result. rewrite !lookup_set_if_ne by done.
  split.
  - by rewrite lookup_insert_ne, lookup_insert_eq.
  - by rewrite lookup_insert_eq.
Qed.

Lemma lookup_set_if_keep (b : bool) (key k : string) (v : Value)
    (row : Row) :
  k ∉ (if b then {[key]} else ∅ : gset string) ->
  set_if b key v row !! k = row !! k.
Proof.
  destruct b; simpl; [|done]. intros Hk.
  apply lookup_insert_ne. set_solver.
Qed.

(** X2: Every cell of the topic row that the flattener does not write (the
    query id and the query text among them) reaches the flattened row
    unchanged. *)
Theorem merge_result_keeps_other_cells self row result k :
  k ∉ written_columns self ->
  _merge_result self row result !! k = row !! k.
Proof.
  unfold written_columns, feature_columns, feature_table, selected_column.
  cbn [fmap list_fmap union_list fst snd]. intros Hk.
  unfold _merge_result.
  rewrite !lookup_set_if_keep by set_solver.
  rewrite !lookup_insert_ne by set_solver. done.
Qed.

(** X3: Two results flattened onto the same topic row under the same
    configuration have the same columns: a per-query table has no gaps. *)
Theorem merge_result_columns_independent_of_result self row result1 result2 :
  dom (_merge_result self row result1) = dom (_merge_result self row result2).
Proof. by rewrite !merge_result_dom. Qed.

(** X4: For flag values, flattening under [f1 | f2] yields the columns of
    flattening under [f1] together with those of flattening under [f2]. *)
Theorem merge_result_flag_union self1 self2 self12 f1 f2 row result :
  features self1 = OneFeature f1 ->
  features self2 = OneFeature f2 ->
  features self12 = OneFeature (Feature.or f1 f2) ->
  dom (_merge_result self12 row result)
  = dom (_merge_result self1 row result) ∪ dom (_merge_result self2 row result).
Proof.
  intros H1 H2 H12. rewrite !merge_result_dom.
  rewrite (feature_columns_flag_union self1 self2 self12 f1 f2) by done.
  set_solver.
Qed.

(** X5: For sets of flags, flattening under the union of two sets yields the
    columns of flattening under the one together with those under the
    other. *)
Theorem merge_result_set_union self1 self2 self12 s1 s2 row result :
  features self1 = FeatureSet s1 ->
  features self2 = FeatureSet s2 ->
  features self12 = FeatureSet (s1 ++ s2)%list ->
  dom (_merge_result self12 row result)
  = dom (_merge_result self1 row result) ∪ dom (_merge_result self2 row result).
Proof.
  intros H1 H2 H12. rewrite !merge_result_dom.
  rewrite (feature_columns_set_union self1 self2 self12 s1 s2) by done.
  set_solver.
Qed.

(** ** The per-query transform at its edges *)

Section PerQueryEdges.

Variable client : Request -> list SearchResult.t.

(** X6: A topic that does not have exactly one row is refused with the
    one-query error, and a one-row topic without a query text raises
    [KeyError]; in both cases no request has been sent. *)
Theorem malformed_topic_fails_before_request self topic log :
  (length (records topic) <> 1%nat ->
   _transform_query client self topic log
   = (inl (RuntimeError "Can only transform one query at a time."), log))
  /\ (forall row,
        records topic = [row] -> row !! "query" = None ->
        _transform_query client self topic log
        = (inl (KeyError "query"), log)).
Proof.
  split.
  - intros Hlen. unfold _transform_query.
    by destruct (records topic) as [|row [|row' rest]].
  - intros row Hrow Hq. unfold _transform_query. by rewrite Hrow, Hq.
Qed.

(** X7: A result cap that is negative or above [sys.maxsize] makes the call
    raise [ValueError], but only after the request has gone out, with the
    page size computed from that cap. *)
Theorem cap_out_of_range_raises_after_request self topic row query log N :
  features_reducible self ->
  num_results self = Some N ->
  N < 0 \/ sys_maxsize < N ->
  records topic = [row] ->
  row !! "query" = Some query ->
  exists msg req,
    _transform_query client self topic log
    = (inl (ValueError msg), (log ++ [req])%list)
    /\ request_page_size req = Z.min (page_size self) N.
Proof.
  intros Hf HN Hrange Hrow Hq.
  unfold _transform_query, bind. rewrite Hrow, Hq.
  rewrite effective_features_ok by done.
  unfold effective_page_size, call, islice, raise. rewrite HN.
  assert (Hb : (0 <=? N) && (N <=? sys_maxsize) = false).
  { apply andb_false_iff. rewrite !Z.leb_gt. lia. }
  rewrite Hb. destruct (phrases self); simpl; by eexists _, _.
Qed.

Lemma fold_or_contains_bit (l : list Feature.t) (x : Feature.t) (k : N) :
  Feature.contains (fold_left Feature.or l x) (2 ^ k)%N
  = Feature.contains x (2 ^ k)%N
    || existsb (fun f => Feature.contains f (2 ^ k)%N) l.
Proof.
  revert x. induction l as [|f l IH]; intros x; simpl.
  - by rewrite orb_false_r.
  - rewrite IH, contains_or_bit. by rewrite orb_assoc.
Qed.

(** X8: Explanations are requested from the service exactly when the
    configured flag value, or some flag of the configured set, includes
    [EXPLANATION]. *)
Theorem explain_requested_iff_some_flag self topic row query log :
  features_reducible self ->
  records topic = [row] ->
  row !! "query" = Some query ->
  exists req,
    snd (_transform_query client self topic log) = (log ++ [req])%list
    /\ request_explain req
       = match features self with
         | OneFeature f => Feature.contains f Feature.EXPLANATION
         | FeatureSet s =>
             existsb (fun f => Feature.contains f Feature.EXPLANATION) s
         end.
Proof.
  intros Hf Hrow Hq. exists (query_request self query). split.
  - by eapply transform_query_log.
  - assert (Hexplain : request_explain (query_request self query)
                       = Feature.contains (union_of_flags self)
                           Feature.EXPLANATION).
    { unfold query_request. by destruct (phrases self). }
    rewrite Hexplain. unfold union_of_flags, features_reducible in *.
    destruct (features self) as [f|[|f s]]; [done|done|].
    change Feature.EXPLANATION with (2 ^ 10)%N. cbn [hd tl existsb].
    apply fold_or_contains_bit.
Qed.

Lemma transform_query_success_inv self topic log out log' :
  _transform_query client self topic log = (inr out, log') ->
  exists row req kept,
    records topic = [row]
    /\ log' = (log ++ [req])%list
    /\ sublist kept (client req)
    /\ records out = _merge_result self row <$> kept.
Proof.
  unfold _transform_query, bind.
  destruct (records topic) as [|row [|row' rest]] eqn:Hrow; [done| |done].
  destruct (row !! "query") as [query|] eqn:Hq; [|done].
  unfold effective_features, reduce.
  assert (Hkept : forall l : list SearchResult.t,
            sublist (if filter_unknown self then List.filter known l else l) l).
  { intros l. destruct (filter_unknown self); [|done].
    induction l as [|x l IH]; [done|]. simpl.
    destruct (known x); by constructor. }
  assert (Hrec : forall kept,
            records (DataFrame_of_records (_merge_result self row <$> kept))
            = _merge_result self row <$> kept).
  { intros kept. eapply DataFrame_of_records_uniform.
    apply Forall_fmap, Forall_forall. intros r _. simpl.
    apply merge_result_dom. }
  destruct (features self) as [f|[|f s]]; simpl; [|done|];
    unfold call;
    (destruct (phrases self); simpl;
     (destruct (num_results self) as [n|];
      [unfold islice;
       destruct ((0 <=? n) && (n <=? sys_maxsize)); [|done]|];
      unfold ret; intros [= <- <-];
      eexists row, _, _;
      (split; [done|]); (split; [done|]);
      (split; [|apply Hrec]);
      try (etrans; [apply sublist_take|]); apply Hkept)).
Qed.

(** X9: Whenever a per-query call returns a table, its rows are the
    flattening of a subsequence of the results the service gave for the
    one request sent: nothing is reordered, repeated or made up. *)
Theorem returned_rows_are_a_subsequence self topic log out log' :
  _transform_query client self topic log = (inr out, log') ->
  exists row req kept,
    records topic = [row]
    /\ log' = (log ++ [req])%list
    /\ sublist kept (client req)
    /\ records out = _merge_result self row <$> kept.
Proof. apply transform_query_success_inv. Qed.

(** X10: With filter-unknown on, every row of a returned table has a document
    id: its [docno] cell is a string. *)
Theorem filtered_rows_have_docno self topic log out log' :
  filter_unknown self = true ->
  _transform_query client self topic log = (inr out, log') ->
  forall r, r ∈ records out -> exists id, r !! "docno" = Some (VStr id).
Proof.
  intros Hfilter.
  unfold _transform_query, bind. rewrite Hfilter.
  destruct (records topic) as [|row [|row' rest]] eqn:Hrow; [done| |done].
  destruct (row !! "query") as [query|] eqn:Hq; [|done].
  unfold effective_features, reduce.
  assert (Hdoc : forall kept : list SearchResult.t,
            Forall (fun res => known res = true) kept ->
            forall r,
              r ∈ records (DataFrame_of_records
                             (_merge_result self row <$> kept)) ->
              exists id, r !! "docno" = Some (VStr id)).
  { intros kept Hknown r.
    rewrite (DataFrame_of_records_uniform
               (dom row ∪ {["docno"; "score"]} ∪ feature_columns self)).
    2:{ apply Forall_fmap, Forall_forall. intros r0 _. simpl.
        apply merge_result_dom. }
    intros Hr. apply list_elem_of_fmap in Hr as (res & -> & Hres).
    rewrite Forall_forall in Hknown. specialize (Hknown res Hres).
    rewrite merge_result_docno. unfold docno_of, known in *.
    destruct (SearchResult.trec_id res); [by eexists|done]. }
  assert (Hfil : forall l : list SearchResult.t,
            Forall (fun res => known res = true) (List.filter known l)).
  { intros l. apply Forall_forall. intros res Hres.
    apply list_elem_of_In, filter_In in Hres. tauto. }
  destruct (features self) as [f|[|f s]]; simpl; [|done|];
    unfold call;
    (destruct (phrases self); simpl;
     (destruct (num_results self) as [n|];
      [unfold islice;
       destruct ((0 <=? n) && (n <=? sys_maxsize)); [|done]|];
      unfold ret; intros [= <- <-];
      apply Hdoc; try apply Forall_take; apply Hfil)).
Qed.

End PerQueryEdges.

(** ** The batch transform at its edges *)

Lemma first_seen_covers x l : x ∈ l -> x ∈ first_seen l.
Proof.
  induction l as [|y l IH]; [by intros ?%elem_of_nil|].
  intros Hx. simpl. destruct (decide (x = y)) as [->|Hne]; [by left|].
  right. apply list_elem_of_filter. split; [done|].
  apply IH. by apply elem_of_cons in Hx as [?|?].
Qed.

Lemma group_size (by_ : string) (k : Value) (rows : list Row) :
  length (filter (fun r => group_key by_ r = Some k) rows)
  = length (filter (fun k' => k' = k) (omap (group_key by_) rows)).
Proof.
  induction rows as [|r rows IH]; [done|]. csimpl.
  destruct (group_key by_ r) as [k'|] eqn:Hk.
  - destruct (decide (k' = k)) as [->|Hne].
    + rewrite !filter_cons_True by done. simpl. by rewrite IH.
    + rewrite !filter_cons_False by congruence. done.
  - rewrite filter_cons_False by congruence. done.
Qed.

Lemma NoDup_single_occurrences (l : list Value) :
  (forall x, x ∈ l -> length (filter (fun y => y = x) l) = 1%nat) ->
  NoDup l.
Proof.
  induction l as [|x l IH]; intros Hone; [constructor|].
  assert (Hx : x ∉ l).
  { intros Hin. specialize (Hone x ltac:(by left)).
    rewrite filter_cons_True in Hone by done. simpl in Hone.
    assert (Hpos : x ∈ filter (fun y => y = x) l)
      by (by apply list_elem_of_filter).
    destruct (filter (fun y => y = x) l); [by apply elem_of_nil in Hpos|].
    simpl in Hone. lia. }
  constructor; [done|]. apply IH. intros y Hy.
  specialize (Hone y ltac:(by right)).
  rewrite filter_cons_False in Hone; [done|]. by intros ->.
Qed.

Section BatchEdges.

Variable client : Request -> list SearchResult.t.

Lemma transform_query_same_fields self other topic log :
  same_search_fields self other ->
  _transform_query client self topic log
  = _transform_query client other topic log.
Proof.
  intros (Ha & Hi & Hp & Hs & Hf & Hu & Hn & Hps).
  unfold _transform_query, effective_page_size, effective_features,
    _merge_result, feature_in.
  by rewrite Ha, Hi, Hp, Hs, Hf, Hu, Hn, Hps.
Qed.

Lemma groupby_apply_ext f g groups log :
  (forall topic log0, f topic log0 = g topic log0) ->
  groupby_apply f groups log = groupby_apply g groups log.
Proof.
  intros Hfg. revert log. induction groups as [|t groups IH]; intros log;
    [done|].
  simpl. unfold bind. rewrite Hfg. destruct (g t log) as [[e|out] log0];
    [done|]. by rewrite IH.
Qed.

(** X11: [retries], [backoff_seconds] and [verbose] reach neither the search
    service nor the result: two configurations that differ only in these
    fields send the same requests and return the same table or raise the
    same exception. *)
Theorem transform_ignores_retries_backoff_verbose self other topics log :
  same_search_fields self other ->
  transform client self topics log = transform client other topics log.
Proof.
  intros Hsame. unfold transform. destruct topics as [df|v]; [|done].
  destruct (bool_decide ({["qid"; "query"]} ⊆ columns df)); [|done].
  cbn [negb]. destruct (Nat.eqb (df_len df) 0).
  { by apply transform_query_same_fields. }
  unfold bind, groupby_progress_apply.
  replace (if verbose self then _ else _)
    with (groupby_apply (_transform_query client self) (groupby "qid" df))
    by (by destruct (verbose self)).
  replace (if verbose other then _ else _)
    with (groupby_apply (_transform_query client other) (groupby "qid" df))
    by (by destruct (verbose other)).
  rewrite (groupby_apply_ext (_transform_query client self)
             (_transform_query client other)); [done|].
  intros topic log0. by apply transform_query_same_fields.
Qed.

(** A per-query call that returns has sent the request for the query
    text of its one row. *)
Lemma transform_query_success_request self cols r log out log' :
  _transform_query client self {| columns := cols; records := [r] |} log
  = (inr out, log') ->
  log' = (log ++ [query_request self (query_of r)])%list.
Proof.
  intros Hrun.
  assert (Hq : is_Some (r !! "query")).
  { unfold _transform_query in Hrun. cbn [records] in Hrun.
    destruct (r !! "query"); [by eexists|done]. }
  destruct Hq as [q Hq].
  assert (Hf : features_reducible self).
  { intros Hempty. unfold _transform_query, bind, effective_features in Hrun.
    cbn [records] in Hrun. rewrite Hq, Hempty in Hrun. done. }
  pose proof (transform_query_log client self
                {| columns := cols; records := [r] |} r q log
                Hf eq_refl Hq) as Hlog.
  rewrite Hrun in Hlog. simpl in Hlog.
  unfold query_of. by rewrite Hq.
Qed.

Lemma groupby_apply_rows_success self cols rows log outs log' :
  groupby_apply (_transform_query client self)
    ((fun r => {| columns := cols; records := [r] |}) <$> rows) log
  = (inr outs, log') ->
  log' = (log ++ batch_requests self rows)%list.
Proof.
  revert log outs. induction rows as [|r rows IH]; intros log outs.
  - simpl. unfold ret. intros [= _ <-]. by rewrite app_nil_r.
  - csimpl. unfold bind at 1.
    destruct (_transform_query client self _ log) as [[e|out] log0] eqn:Hr;
      [done|].
    unfold bind at 1.
    destruct (groupby_apply _ _ log0) as [[e|outs0] log1] eqn:Hrest; [done|].
    unfold ret. intros [= _ <-].
    apply transform_query_success_request in Hr as ->.
    apply IH in Hrest as ->.
    unfold batch_requests. csimpl. by rewrite <- app_assoc.
Qed.

Lemma groupby_apply_sizes self groups log outs log' :
  groupby_apply (_transform_query client self) groups log = (inr outs, log') ->
  Forall (fun g => length (records g) = 1%nat) groups.
Proof.
  revert log outs. induction groups as [|g groups IH]; intros log outs.
  - intros _. constructor.
  - simpl. unfold bind at 1.
    destruct (_transform_query client self g log) as [[e|out] log0] eqn:Hg;
      [done|].
    unfold bind at 1.
    destruct (groupby_apply _ groups log0) as [[e|outs0] log1] eqn:Hrest;
      [done|].
    unfold ret. intros [= _ <-].
    destruct (transform_query_success_inv client _ _ _ _ _ Hg)
      as (row & req & kept & Hrow & _).
    constructor; [by rewrite Hrow|by eapply IH].
Qed.

(** When no key occurs twice, each group is the one row that has its
    key, and the groups follow the rows that have a key. *)
Lemma groups_of_distinct_keys (by_ : string) (rows : list Row) :
  NoDup (omap (group_key by_) rows) ->
  (fun k => filter (fun r => group_key by_ r = Some k) rows)
    <$> omap (group_key by_) rows
  = (fun r => [r]) <$> filter (fun r => is_Some (group_key by_ r)) rows.
Proof.
  induction rows as [|r rows IH]; [done|]. csimpl.
  destruct (group_key by_ r) as [k0|] eqn:Hk0.
  - intros [Hfresh Hnd]%NoDup_cons.
    rewrite (filter_cons_True (fun r => is_Some (group_key by_ r)))
      by (rewrite Hk0; by eexists).
    rewrite !fmap_cons. f_equal.
    + rewrite filter_cons_True by done. f_equal.
      apply filter_none, Forall_forall. intros r' Hr' Hkey.
      apply Hfresh. apply list_elem_of_omap. eauto.
    + rewrite <- IH by done. apply list_fmap_ext. intros i k Hk.
      rewrite filter_cons_False; [done|].
      rewrite Hk0. intros [= ->]. apply Hfresh.
      by eapply list_elem_of_lookup_2.
  - intros Hnd.
    rewrite (filter_cons_False (fun r => is_Some (group_key by_ r)))
      by (rewrite Hk0; by intros [? ?]).
    rewrite <- IH by done. apply list_fmap_ext. intros i k Hk.
    rewrite filter_cons_False; [done|]. by rewrite Hk0.
Qed.

(** X12: The batch transform returns a table only if no two rows share a query
    id (rows whose query id is missing aside; ids are compared as Python
    compares them).  The requests it has then sent, after those logged
    before, are one per row that has a query id, in table order: the
    request for that row's query text. *)
Theorem success_needs_distinct_query_ids self df log out log' :
  transform client self (IsDataFrame df) log = (inr out, log') ->
  NoDup (omap (group_key "qid") (records df))
  /\ log'
     = (log ++ batch_requests self
                 (filter (fun r => is_Some (group_key "qid" r))
                         (records df)))%list.
Proof.
  unfold transform.
  destruct (bool_decide ({["qid"; "query"]} ⊆ columns df)); [|done].
  cbn [negb]. destruct (Nat.eqb (df_len df) 0) eqn:Hlen.
  { intros Hrun. apply transform_query_success_inv in Hrun
      as (row & _ & _ & Hrow & _).
    apply Nat.eqb_eq in Hlen. unfold df_len in Hlen.
    by rewrite Hrow in Hlen. }
  unfold bind at 1.
  replace (if verbose self then _ else _)
    with (groupby_apply (_transform_query client self) (groupby "qid" df))
    by (by destruct (verbose self)).
  destruct (groupby_apply _ _ log) as [[e|outs] log0] eqn:Happly; [done|].
  unfold bind, sort_values_desc.
  destruct (decide ("score" ∈ columns (concat_frames outs))); [|done].
  unfold ret. intros [= _ <-].
  assert (Hnd : NoDup (omap (group_key "qid") (records df))).
  { apply groupby_apply_sizes in Happly as Hall.
    apply NoDup_single_occurrences. intros k Hk.
    rewrite <- group_size. unfold groupby in Hall.
    rewrite Forall_fmap, Forall_forall in Hall.
    apply (Hall k). by apply first_seen_covers. }
  split; [done|].
  unfold groupby in Happly. rewrite first_seen_NoDup in Happly by done.
  assert (Hgroups :
            (fun k => {| columns := columns df;
                         records := filter
                           (fun r => group_key "qid" r = Some k)
                           (records df) |})
              <$> omap (group_key "qid") (records df)
            = (fun r => {| columns := columns df; records := [r] |})
                <$> filter (fun r => is_Some (group_key "qid" r))
                      (records df)).
  { transitivity
      ((fun rows => {| columns := columns df; records := rows |})
         <$> ((fun k => filter (fun r => group_key "qid" r = Some k)
                               (records df))
                <$> omap (group_key "qid") (records df))).
    - by rewrite <- list_fmap_compose.
    - rewrite groups_of_distinct_keys by done.
      by rewrite <- list_fmap_compose. }
  rewrite Hgroups in Happly.
  by eapply groupby_apply_rows_success.
Qed.

End BatchEdges.

Lemma rank_rows_dom (D : gset string) before rows :
  Forall (fun r => dom r = D) rows ->
  Forall (fun r => dom r = D ∪ {["rank"]}) (rank_rows before rows).
Proof.
  intros Hall. revert before.
  induction Hall as [|r rows Hr _ IH]; intros before; [constructor|].
  simpl. constructor; [|apply IH].
  rewrite dom_insert_L, Hr. set_solver.
Qed.

Lemma concat_nil_inv {A} (ls : list (list A)) :
  concat ls = [] -> Forall (fun l => l = []) ls.
Proof.
  induction ls as [|l ls IH]; [constructor|]. simpl.
  intros [-> Hrest]%app_eq_nil. constructor; [done|by apply IH].
Qed.

Section BatchResults.

Variable client : Request -> list SearchResult.t.

(** The table the grouped apply hands to the sort. *)
Lemma transform_distinct_unfold self df qs log :
  {["qid"; "query"]} ⊆ columns df ->
  well_formed df ->
  records df <> [] ->
  string_qids (records df) qs ->
  NoDup qs ->
  features_reducible self ->
  cap_in_range self ->
  transform client self (IsDataFrame df) log
  = (let frames :=
       concat_frames ((fun r => DataFrame_of_records
                         (query_rows client self r (query_of r)))
                        <$> records df) in
     if decide ("score" ∈ columns frames)
     then (inr (add_ranks frames),
           (log ++ batch_requests self (records df))%list)
     else (inl (KeyError "score"),
           (log ++ batch_requests self (records df))%list)).
Proof.
  intros Hcols Hwf Hrows Hqs Hnd Hf Hcap.
  assert (Hquery : Forall (fun r : Row => is_Some (r !! "query")) (records df)).
  { eapply Forall_impl; [exact Hwf|]. intros r Hr. simpl in Hr.
    apply elem_of_dom. rewrite Hr. set_solver. }
  unfold transform. rewrite bool_decide_eq_true_2 by done.
  cbn [negb]. unfold df_len.
  destruct (Nat.eqb_spec (length (records df)) 0) as [Hlen|_].
  { by destruct (records df). }
  replace (groupby "qid" df)
    with ((fun r => {| columns := columns df; records := [r] |})
            <$> records df).
  2:{ symmetry. destruct df as [cols rows]. by eapply groupby_distinct. }
  unfold groupby_progress_apply, bind at 1.
  replace (if verbose self then _ else _)
    with (groupby_apply (_transform_query client self)
            ((fun r => {| columns := columns df; records := [r] |})
               <$> records df)) by (by destruct (verbose self)).
  cbv beta. rewrite groupby_apply_singletons by done.
  unfold bind, sort_values_desc. cbv zeta.
  by destruct (decide ("score" ∈ columns _)).
Qed.

(** X13: When the service has no result left for any query of a batch, there
    is no table to return: after all requests have been sent, the sort
    finds no [score] column and raises [KeyError]. *)
Theorem no_results_raise_key_error self df qs log :
  {["qid"; "query"]} ⊆ columns df ->
  well_formed df ->
  records df <> [] ->
  string_qids (records df) qs ->
  NoDup qs ->
  features_reducible self ->
  cap_in_range self ->
  batch_rows client self (records df) = [] ->
  transform client self (IsDataFrame df) log
  = (inl (KeyError "score"),
     (log ++ batch_requests self (records df))%list).
Proof.
  intros Hcols Hwf Hrows Hqs Hnd Hf Hcap Hnone.
  rewrite (transform_distinct_unfold self df qs) by done. cbv zeta.
  rewrite decide_False; [done|].
  unfold concat_frames. cbn [columns].
  apply concat_nil_inv in Hnone. rewrite Forall_fmap in Hnone.
  intros Hin. apply elem_of_union_list in Hin as (X & HX & Hin).
  rewrite <- list_fmap_compose in HX.
  apply list_elem_of_fmap in HX as (r & -> & Hr).
  rewrite Forall_forall in Hnone. specialize (Hnone r Hr). simpl in *.
  rewrite Hnone in Hin. simpl in Hin. set_solver.
Qed.

Lemma concat_frames_columns self D rows :
  Forall (fun r => dom r = D) rows ->
  batch_rows client self rows <> [] ->
  columns (concat_frames ((fun r => DataFrame_of_records
                             (query_rows client self r (query_of r)))
                            <$> rows))
  = D ∪ {["docno"; "score"]} ∪ feature_columns self.
Proof.
  intros Hall Hne. apply (anti_symm (⊆)).
  - unfold concat_frames. cbn [columns].
    by apply union_list_bounded, query_frames_columns.
  - unfold concat_frames, batch_rows in *. cbn [columns].
    induction Hall as [|r rows Hr _ IH]; [done|].
    rewrite !fmap_cons in *. simpl concat in Hne. simpl union_list.
    destruct (query_rows client self r (query_of r)) as [|row0 qrows] eqn:Hq.
    + rewrite app_nil_l in Hne. specialize (IH Hne). set_solver.
    + pose proof (query_rows_dom client self r (query_of r)) as Hdom.
      rewrite Hq in Hdom. apply Forall_cons in Hdom as [Hd _].
      simpl. rewrite Hd, Hr. set_solver.
Qed.

(** X14: The table returned for a batch is rectangular: its columns are those
    of the topics together with [docno], [score], [rank] and the selected
    feature columns, and every row has exactly these. *)
Theorem returned_table_is_rectangular self df qs log :
  {["qid"; "query"]} ⊆ columns df ->
  well_formed df ->
  string_qids (records df) qs ->
  NoDup qs ->
  features_reducible self ->
  cap_in_range self ->
  batch_rows client self (records df) <> [] ->
  exists out log',
    transform client self (IsDataFrame df) log = (inr out, log')
    /\ columns out
       = columns df ∪ {["docno"; "score"; "rank"]} ∪ feature_columns self
    /\ Forall (fun r => dom r = columns out) (records out).
Proof.
  intros Hcols Hwf Hqs Hnd Hf Hcap Hne.
  assert (Hrows : records df <> []).
  { intros Hnil. by rewrite Hnil in Hne. }
  rewrite (transform_distinct_unfold self df qs) by done. cbv zeta.
  rewrite decide_True by (by apply concat_frames_score).
  eexists _, _. split; [done|].
  assert (Hc : columns (add_ranks (concat_frames
                 ((fun r => DataFrame_of_records
                     (query_rows client self r (query_of r)))
                    <$> records df)))
               = columns df ∪ {["docno"; "score"; "rank"]}
                   ∪ feature_columns self).
  { unfold add_ranks. cbn [columns].
    rewrite (concat_frames_columns self (columns df)) by done. set_solver. }
  split; [exact Hc|]. rewrite Hc.
  unfold add_ranks. cbn [records].
  rewrite (concat_frames_records client self (columns df)) by done.
  eapply Forall_impl.
  - apply rank_rows_dom. by apply batch_rows_dom.
  - intros r Hr. simpl in *. rewrite Hr. set_solver.
Qed.

End BatchResults.

(** ** Hashing and equality together *)

Section HashContract.

Variable pyhash : PyKey -> Z.

Lemma set_equal_inv {A} `{EqDecision A} (s t : PySet A) :
  set_equal s t = true -> NoDup s -> NoDup t -> s ≡ₚ t.
Proof.
  unfold set_equal. intros [Hst Hts]%andb_true_iff Hs Ht.
  rewrite forallb_forall in Hst, Hts.
  apply NoDup_Permutation; [done..|]. intros x. split; intros Hx.
  - apply list_elem_of_In, Hst in Hx. by apply bool_decide_eq_true_1 in Hx.
  - apply list_elem_of_In, Hts in Hx. by apply bool_decide_eq_true_1 in Hx.
Qed.

Lemma index_key_equal self other :
  index_eq (index self) (index other) = true ->
  index_names_distinct (index self) ->
  index_names_distinct (index other) ->
  index_key self = index_key other.
Proof.
  unfold index_key, index_names_distinct.
  destruct (index self) as [i|s], (index other) as [j|t]; simpl; try done.
  - intros Hij _ _. by apply bool_decide_eq_true_1 in Hij as ->.
  - intros Heq Hs Ht. f_equal. f_equal.
    apply sorted_by_key_order_independent; [|done].
    apply set_equal_inv; [done|by eapply NoDup_fmap_1..].
Qed.

Lemma index_key_hashable self : hashable (index_key self) = true.
Proof.
  unfold index_key. destruct (index self) as [i|s]; [done|].
  simpl. apply forallb_forall. intros k Hk.
  apply list_elem_of_In, list_elem_of_fmap in Hk as (i & -> & _). done.
Qed.

(** X15: With the features given as a flag value, [__hash__] returns an
    integer, and two configurations that [__eq__] finds equal hash to the
    same integer. *)
Theorem equal_configurations_hash_equal self other f :
  features self = OneFeature f ->
  index_names_distinct (index self) ->
  index_names_distinct (index other) ->
  __eq__ self other = true ->
  (exists h, __hash__ pyhash self = inr h)
  /\ __hash__ pyhash self = __hash__ pyhash other.
Proof.
  intros Hf Hwf Hwf' Heq. unfold __eq__ in Heq.
  rewrite !andb_true_iff in Heq.
  destruct Heq
    as ((((((((((Ha & Hi) & Hp) & Hs) & Hfe) & Hu) & Hn) & Hps) & Hr) & Hb)
        & Hv).
  apply String.eqb_eq in Ha. apply Bool.eqb_prop in Hp, Hu, Hv.
  apply Z.eqb_eq in Hs, Hps, Hr, Hb. apply bool_decide_eq_true_1 in Hn.
  assert (Hfo : features other = OneFeature f).
  { rewrite Hf in Hfe. destruct (features other) as [g|t]; [|done].
    simpl in Hfe. f_equal. symmetry. by apply N.eqb_eq. }
  assert (Hik : index_key self = index_key other)
    by (by apply index_key_equal).
  unfold __hash__, features_key, num_results_key.
  rewrite Hf, Hfo, Hik, Ha, Hp, Hs, Hu, Hn, Hps, Hr, Hb, Hv.
  split; [|done].
  unfold hash. cbn [hashable forallb].
  rewrite index_key_hashable.
  destruct (num_results other); simpl; eauto.
Qed.

End HashContract.

(** ** The flag enumeration *)

Lemma contains_or_closed (s a b : Feature.t) :
  Feature.contains s a = true -> Feature.contains s b = true ->
  Feature.contains s (Feature.or a b) = true.
Proof.
  unfold Feature.contains, Feature.or. rewrite !N.eqb_eq.
  intros Ha Hb. by rewrite N.land_lor_distr_l, Ha, Hb.
Qed.

Lemma members_in_ALL :
  Forall (fun m => Feature.contains Feature.ALL m = true) feature_members.
Proof. unfold feature_members. repeat constructor. Qed.

(** X17: [Feature.ALL] contains every member of the enumeration and every
    combination of members by [|]. *)
Theorem all_contains_every_combination (l : list Feature.t) :
  Forall (fun m => m ∈ feature_members) l ->
  Feature.contains Feature.ALL (fold_left Feature.or l Feature.NONE) = true.
Proof.
  assert (Hgen : forall x,
            Feature.contains Feature.ALL x = true ->
            Forall (fun m => m ∈ feature_members) l ->
            Feature.contains Feature.ALL (fold_left Feature.or l x) = true).
  { induction l as [|m l IH]; intros x Hx Hall; [done|].
    apply Forall_cons in Hall as [Hm Hall]. simpl. apply IH; [|done].
    apply contains_or_closed; [done|].
    pose proof members_in_ALL as Hin. rewrite Forall_forall in Hin.
    by apply Hin. }
  by apply Hgen.
Qed.

(** * The further properties on the worked example *)

Lemma merge_result_keeps_other_cells_witness :
  _merge_result Example.config (Example.topic "1" "python library")
    (Example.result (Some "doc-1") 5) !! "qid"
  = Some (VStr "1").
Proof.
  rewrite (merge_result_keeps_other_cells Example.config
             (Example.topic "1" "python library")
             (Example.result (Some "doc-1") 5) "qid").
  - vm_compute. reflexivity.
  - apply (bool_decide_unpack _). vm_compute. exact I.
Defined.

Lemma merge_result_flag_union_witness :
  dom (_merge_result
         (Example.with_features Example.config
            (OneFeature (Feature.or Feature.UUID Feature.TARGET)))
         (Example.topic "1" "python library")
         (Example.result (Some "doc-1") 5))
  = dom (_merge_result
           (Example.with_features Example.config (OneFeature Feature.UUID))
           (Example.topic "1" "python library")
           (Example.result (Some "doc-1") 5))
    ∪ dom (_merge_result
             (Example.with_features Example.config
                (OneFeature Feature.TARGET))
             (Example.topic "1" "python library")
             (Example.result (Some "doc-1") 5)).
Proof.
  apply (merge_result_flag_union
           (Example.with_features Example.config (OneFeature Feature.UUID))
           (Example.with_features Example.config (OneFeature Feature.TARGET))
           (Example.with_features Example.config
              (OneFeature (Feature.or Feature.UUID Feature.TARGET)))
           Feature.UUID Feature.TARGET); reflexivity.
Defined.

Lemma merge_result_set_union_witness :
  dom (_merge_result
         (Example.with_features Example.config
            (FeatureSet [Feature.UUID; Feature.HTML]))
         (Example.topic "1" "python library")
         (Example.result (Some "doc-1") 5))
  = dom (_merge_result
           (Example.with_features Example.config (FeatureSet [Feature.UUID]))
           (Example.topic "1" "python library")
           (Example.result (Some "doc-1") 5))
    ∪ dom (_merge_result
             (Example.with_features Example.config
                (FeatureSet [Feature.HTML]))
             (Example.topic "1" "python library")
             (Example.result (Some "doc-1") 5)).
Proof.
  apply (merge_result_set_union
           (Example.with_features Example.config (FeatureSet [Feature.UUID]))
           (Example.with_features Example.config (FeatureSet [Feature.HTML]))
           (Example.with_features Example.config
              (FeatureSet [Feature.UUID; Feature.HTML]))
           [Feature.UUID] [Feature.HTML]); reflexivity.
Defined.

Lemma malformed_topic_fails_before_request_witness :
  _transform_query Example.client Example.config Example.topics []
  = (inl (RuntimeError "Can only transform one query at a time."), [])
  /\ _transform_query Example.client Example.config
       {| columns := {["qid"]}; records := [{["qid" := VStr "1"]}] |} []
     = (inl (KeyError "query"), []).
Proof.
  split.
  - apply (proj1 (malformed_topic_fails_before_request Example.client
                    Example.config Example.topics [])).
    simpl. lia.
  - apply (proj2 (malformed_topic_fails_before_request Example.client
                    Example.config
                    {| columns := {["qid"]};
                       records := [{["qid" := VStr "1"]}] |} [])
             {["qid" := VStr "1"]}).
    + reflexivity.
    + vm_compute. reflexivity.
Defined.

Lemma cap_out_of_range_raises_after_request_witness :
  exists msg req,
    _transform_query Example.client
      (Example.with_num_results Example.config (Some (-1)))
      Example.one_topic []
    = (inl (ValueError msg), [req])
    /\ request_page_size req = -1.
Proof.
  apply (cap_out_of_range_raises_after_request Example.client
           (Example.with_num_results Example.config (Some (-1)))
           Example.one_topic (Example.topic "1" "python library")
           (VStr "python library") [] (-1)).
  - discriminate.
  - reflexivity.
  - left. lia.
  - reflexivity.
  - vm_compute. reflexivity.
Defined.

Lemma explain_requested_iff_some_flag_witness :
  exists req,
    snd (_transform_query Example.client
           (Example.with_features Example.config
              (FeatureSet [Feature.UUID; Feature.ALL]))
           Example.one_topic [])
    = [req]
    /\ request_explain req = true.
Proof.
  apply (explain_requested_iff_some_flag Example.client
           (Example.with_features Example.config
              (FeatureSet [Feature.UUID; Feature.ALL]))
           Example.one_topic (Example.topic "1" "python library")
           (VStr "python library") []).
  - discriminate.
  - reflexivity.
  - vm_compute. reflexivity.
Defined.

Lemma example_query_run (self : ChatNoirRetrieve) :
  features_reducible self ->
  cap_in_range self ->
  _transform_query Example.client self
    (Example.table [Example.topic "2" "search engine"]) []
  = (inr (DataFrame_of_records
            (query_rows Example.client self
               (Example.topic "2" "search engine") (VStr "search engine"))),
     [query_request self (VStr "search engine")]).
Proof.
  intros Hf Hcap.
  apply (transform_query_ok Example.client self
           (Example.table [Example.topic "2" "search engine"])
           (Example.topic "2" "search engine") (VStr "search engine") []);
    [done|done|reflexivity|vm_compute; reflexivity].
Defined.

Lemma example_cap_in_range : cap_in_range Example.config.
Proof. unfold cap_in_range, sys_maxsize. simpl. lia. Defined.

Lemma returned_rows_are_a_subsequence_witness :
  exists out log' row req kept,
    _transform_query Example.client Example.config
      (Example.table [Example.topic "2" "search engine"]) []
    = (inr out, log')
    /\ records (Example.table [Example.topic "2" "search engine"]) = [row]
    /\ log' = [req]
    /\ sublist kept (Example.client req)
    /\ records out = _merge_result Example.config row <$> kept.
Proof.
  pose proof (example_query_run Example.config
                ltac:(discriminate) example_cap_in_range) as Hrun.
  destruct (returned_rows_are_a_subsequence Example.client Example.config
              _ _ _ _ Hrun) as (row & req & kept & H1 & H2 & H3 & H4).
  by eexists _, _, row, req, kept.
Defined.

Lemma filtered_rows_have_docno_witness :
  exists out log',
    _transform_query Example.client
      (Example.with_filter_unknown Example.config true)
      (Example.table [Example.topic "2" "search engine"]) []
    = (inr out, log')
    /\ forall r, r ∈ records out -> exists id, r !! "docno" = Some (VStr id).
Proof.
  pose proof (example_query_run
                (Example.with_filter_unknown Example.config true)
                ltac:(discriminate) example_cap_in_range) as Hrun.
  eexists _, _. split; [exact Hrun|].
  exact (filtered_rows_have_docno Example.client
           (Example.with_filter_unknown Example.config true)
           _ _ _ _ eq_refl Hrun).
Defined.

Lemma transform_ignores_retries_backoff_verbose_witness :
  transform Example.client Example.config (IsDataFrame Example.topics) []
  = transform Example.client Example.patient_config
      (IsDataFrame Example.topics) [].
Proof.
  apply (transform_ignores_retries_backoff_verbose Example.client
           Example.config Example.patient_config).
  unfold same_search_fields. repeat split; reflexivity.
Defined.

Lemma example_topics_run :
  exists out,
    transform Example.client Example.config (IsDataFrame Example.topics) []
    = (inr out, ([] ++ batch_requests Example.config
                          (records Example.topics))%list)
    /\ records out
       = rank_rows [] (batch_rows Example.client Example.config
                         (records Example.topics)).
Proof.
  apply (transform_distinct_ok Example.client Example.config
           Example.topics ["1"; "2"] []).
  - apply example_columns_ok.
  - unfold well_formed. repeat constructor; vm_compute; reflexivity.
  - vm_compute. reflexivity.
  - apply (bool_decide_unpack _). vm_compute. exact I.
  - discriminate.
  - apply example_cap_in_range.
  - intros Hnil. apply (f_equal length) in Hnil.
    vm_compute in Hnil. discriminate.
Defined.

Lemma success_needs_distinct_query_ids_witness :
  exists out log',
    transform Example.client Example.config (IsDataFrame Example.topics) []
    = (inr out, log')
    /\ NoDup (omap (group_key "qid") (records Example.topics))
    /\ log' = [search "key" (VStr "python library")
                      (OneIndex Example.ClueWeb09) false 10;
               search "key" (VStr "search engine")
                      (OneIndex Example.ClueWeb09) false 10].
Proof.
  destruct example_topics_run as (out & Hrun & _).
  destruct (success_needs_distinct_query_ids Example.client Example.config
              Example.topics [] _ _ Hrun) as [Hnd Hlog].
  eexists _, _. split; [exact Hrun|]. split; [exact Hnd|].
  etrans; [exact Hlog|]. vm_compute. reflexivity.
Defined.

Lemma no_results_raise_key_error_witness :
  transform Example.client Example.config
    (IsDataFrame Example.quiet_topic) []
  = (inl (KeyError "score"),
     [search "key" (VStr "no such page") (OneIndex Example.ClueWeb09)
             false 10]).
Proof.
  apply (no_results_raise_key_error Example.client Example.config
           Example.quiet_topic ["3"] []).
  - apply example_columns_ok.
  - unfold well_formed. repeat constructor; vm_compute; reflexivity.
  - discriminate.
  - vm_compute. reflexivity.
  - apply (bool_decide_unpack _). vm_compute. exact I.
  - discriminate.
  - apply example_cap_in_range.
  - vm_compute. reflexivity.
Defined.

Lemma returned_table_is_rectangular_witness :
  exists out log',
    transform Example.client Example.config (IsDataFrame Example.topics) []
    = (inr out, log')
    /\ columns out
       = columns Example.topics ∪ {["docno"; "score"; "rank"]}
           ∪ feature_columns Example.config
    /\ Forall (fun r => dom r = columns out) (records out).
Proof.
  apply (returned_table_is_rectangular Example.client Example.config
           Example.topics ["1"; "2"] []).
  - apply example_columns_ok.
  - unfold well_formed. repeat constructor; vm_compute; reflexivity.
  - vm_compute. reflexivity.
  - apply (bool_decide_unpack _). vm_compute. exact I.
  - discriminate.
  - apply example_cap_in_range.
  - intros Hnil. apply (f_equal length) in Hnil.
    vm_compute in Hnil. discriminate.
Defined.

Lemma equal_configurations_hash_equal_witness :
  (exists h,
     __hash__ (fun _ => 0)
       (Example.with_index Example.config
          (IndexSet [Example.ClueWeb09; Example.ClueWeb12]))
     = inr h)
  /\ __hash__ (fun _ => 0)
       (Example.with_index Example.config
          (IndexSet [Example.ClueWeb09; Example.ClueWeb12]))
     = __hash__ (fun _ => 0)
         (Example.with_index Example.config
            (IndexSet [Example.ClueWeb12; Example.ClueWeb09])).
Proof.
  apply (equal_configurations_hash_equal (fun _ => 0)
           (Example.with_index Example.config
              (IndexSet [Example.ClueWeb09; Example.ClueWeb12]))
           (Example.with_index Example.config
              (IndexSet [Example.ClueWeb12; Example.ClueWeb09]))
           Feature.NONE).
  - reflexivity.
  - apply (bool_decide_unpack _). vm_compute. exact I.
  - apply (bool_decide_unpack _). vm_compute. exact I.
  - vm_compute. reflexivity.
Defined.

Lemma eq_order_independent_witness :
  __eq__ Example.two_sets Example.two_sets_reordered = true.
Proof.
  apply (eq_order_independent Example.two_sets Example.two_sets_reordered
           [Example.ClueWeb09; Example.ClueWeb12]
           [Example.ClueWeb12; Example.ClueWeb09]
           [Feature.UUID; Feature.INDEX] [Feature.INDEX; Feature.UUID]);
    try reflexivity; apply Permutation_swap.
Defined.

Lemma all_contains_every_combination_witness :
  Feature.contains Feature.ALL
    (fold_left Feature.or [Feature.TITLE; Feature.HTML] Feature.NONE)
  = true.
Proof.
  apply (all_contains_every_combination [Feature.TITLE; Feature.HTML]).
  repeat constructor; apply (bool_decide_unpack _); vm_compute; exact I.
Defined.

(** The query ids [True] and [1] are equal in Python, so their two rows
    form one group, which the one-row guard refuses. *)
Lemma equal_keys_of_two_types_share_a_group :
  transform Example.client Example.config
    (IsDataFrame
       (Example.table
          [{["qid" := VBool true; "query" := VStr "python library"]};
           {["qid" := VNum 1; "query" := VStr "search engine"]}])) []
  = (inl (RuntimeError "Can only transform one query at a time."), []).
Proof. vm_compute. reflexivity. Qed.
